(** * usb-can: the CANUSB serial protocol backend (canusb_backend.py)

    A shallow embedding of [CANUSBBackend]: the streaming frame decoder
    ([_process_buffer]), the initialization command encoder
    ([_generate_checksum], [_init_adapter]) and the session life cycle
    ([connect], [disconnect]).

    Bytes are Python ints, modelled as [Z]; a [bytearray] is a [list Z].
    An [option] result is [None] exactly where the Python code would raise. *)

From Stdlib Require Import ZArith Lia.
From stdpp Require Import base option list strings gmap.

Local Open Scope Z_scope.

(** ** The Python operations the backend uses *)

Module Py.

(** [len(l)] *)
Definition len {A : Type} (l : list A) : Z := Z.of_nat (length l).

(** [l[i]], negative indices counting from the end; [None] is IndexError. *)
Definition getitem {A : Type} (l : list A) (i : Z) : option A :=
  if 0 <=? i then l !! Z.to_nat i
  else if 0 <=? len l + i then l !! Z.to_nat (len l + i)
  else None.

(** [l[a:]] for [0 <= a]. *)
Definition slice_from {A : Type} (a : Z) (l : list A) : list A :=
  drop (Z.to_nat a) l.

(** [l[:b]] for [0 <= b]. *)
Definition slice_to {A : Type} (b : Z) (l : list A) : list A :=
  take (Z.to_nat b) l.

(** [l[a:b]] for [0 <= a] and [0 <= b]: out-of-range bounds are clamped. *)
Definition slice {A : Type} (a b : Z) (l : list A) : list A :=
  take (Z.to_nat (b - a)) (drop (Z.to_nat a) l).

(** [l.pop(0)]: the list left after removing its first element;
    [None] is IndexError (pop from empty). *)
Definition pop0 {A : Type} (l : list A) : option (list A) :=
  match l with
  | [] => None
  | _ :: tl => Some tl
  end.

(** [sum(l)] *)
Definition sum (l : list Z) : Z := fold_left Z.add l 0.

(** [bool(n)] for an int *)
Definition bool_of_int (n : Z) : bool := negb (n =? 0).

End Py.

(** ** CANFrame *)

Module CANFrame.

(** The dataclass [CANFrame]; [T] is the type of [time.time()] readings. *)
Record t {T : Type} : Type := mk {
  id : Z;
  dlc : Z;
  data : list Z;
  is_extended : bool;
  timestamp : T
}.
Arguments t : clear implicits.
Arguments mk {T} _ _ _ _ _.

(** A frame without its arrival time. *)
Definition fields {T : Type} (f : t T) : Z * Z * list Z * bool :=
  (id f, dlc f, data f, is_extended f).

End CANFrame.

(** ** The frame decoder: [CANUSBBackend._process_buffer] *)

Section Decoder.

Context {T : Type}.

(** What one execution of the body of [while len(self.buffer) > 0] does:
    it leaves the loop by [break] (the buffer is untouched), or it goes
    round again with a shorter buffer, having handed [emitted] to the
    observers. *)
Inductive iteration : Type :=
| Break
| Continue (buffer : list Z) (emitted : list (CANFrame.t T)).

(** The loop body. [now] is what [time.time()] returns in this iteration. *)
Definition loop_body (now : T) (buffer : list Z) : option iteration :=
  b0 ← Py.getitem buffer 0;
  if negb (b0 =? 0xAA) then
    buffer' ← Py.pop0 buffer;
    Some (Continue buffer' [])
  else if Py.len buffer <? 2 then
    Some Break
  else
    b1 ← Py.getitem buffer 1;
    if b1 =? 0x55 then
      if Py.len buffer >=? 20 then
        Some (Continue (Py.slice_from 20 buffer) [])
      else
        Some Break
    else if Z.shiftr b1 4 =? 0x0C then
      let dlc := Z.land b1 0x0F in
      let frame_len := dlc + 5 in
      if Py.len buffer >=? frame_len then
        let frame_data := Py.slice_to frame_len buffer in
        end_byte ← Py.getitem frame_data (-1);
        emitted ←
          (if end_byte =? 0x55 then
             type_byte ← Py.getitem frame_data 1;
             id_l ← Py.getitem frame_data 2;
             id_h ← Py.getitem frame_data 3;
             let is_ext := Py.bool_of_int (Z.land type_byte 0x20) in
             let can_id := Z.lor id_l (Z.shiftl id_h 8) in
             Some [CANFrame.mk can_id dlc
                     (Py.slice 4 (4 + dlc) frame_data) is_ext now]
           else Some []);
        Some (Continue (Py.slice_from frame_len buffer) emitted)
      else
        Some Break
    else
      buffer' ← Py.pop0 buffer;
      Some (Continue buffer' []).

(** The outcome of a decode pass: the frames dispatched, in order, the
    buffer left behind, and how many times the loop body ran. *)
Record pass : Type := mkpass {
  frames : list (CANFrame.t T);
  rest : list Z;
  iterations : nat
}.

(** The [while] loop, with [fuel] bounding the number of iterations.
    [clock k] is the reading of the [k]-th call of [time.time()];
    [ticks] counts the calls made so far. [None]: an exception escaped,
    or the fuel ran out. *)
Fixpoint while_loop (fuel : nat) (clock : nat -> T) (ticks : nat)
    (buffer : list Z) : option pass :=
  if Py.len buffer >? 0 then
    match fuel with
    | O => None
    | S fuel' =>
        it ← loop_body (clock ticks) buffer;
        match it with
        | Break => Some (mkpass [] buffer 1)
        | Continue buffer' emitted =>
            p ← while_loop fuel' clock (ticks + length emitted)%nat buffer';
            Some (mkpass (emitted ++ frames p) (rest p) (S (iterations p)))
        end
    end
  else Some (mkpass [] buffer 0).

(** One call of [_process_buffer] on [self.buffer = buffer]. *)
Definition _process_buffer (clock : nat -> T) (buffer : list Z)
    : option pass :=
  while_loop (length buffer) clock 0%nat buffer.

(** [_read_loop_iteration] with [in_waiting] the bytes pending on the
    serial port, all of which [self.ser.read(self.ser.in_waiting)]
    returns: they are appended to the buffer, which is then parsed. *)
Definition _read_loop_iteration (clock : nat -> T) (in_waiting : list Z)
    (buffer : list Z) : option pass :=
  let buffer :=
    if Py.len in_waiting >? 0 then buffer ++ in_waiting else buffer in
  _process_buffer clock buffer.

(** The clock as seen after [n] readings. *)
Definition later (n : nat) (clock : nat -> T) : nat -> T :=
  fun k => clock (n + k)%nat.

(** [body_spec now buffer it]: the loop body, run on [buffer], does
    [it]. One constructor per path through the body. *)
Inductive body_spec (now : T) : list Z -> iteration -> Prop :=
| body_noise (b0 : Z) (tl : list Z) :
    b0 <> 0xAA -> body_spec now (b0 :: tl) (Continue tl [])
| body_lone :
    body_spec now [0xAA] Break
| body_command_short (tl : list Z) :
    Py.len tl < 18 -> body_spec now (0xAA :: 0x55 :: tl) Break
| body_command (tl : list Z) :
    18 <= Py.len tl ->
    body_spec now (0xAA :: 0x55 :: tl) (Continue (drop 18 tl) [])
| body_data_short (b1 : Z) (tl : list Z) :
    Z.shiftr b1 4 = 0x0C -> Py.len tl < Z.land b1 0x0F + 3 ->
    body_spec now (0xAA :: b1 :: tl) Break
| body_data (b1 id_l id_h : Z) (payload : list Z) (e : Z) (tl : list Z) :
    Z.shiftr b1 4 = 0x0C -> Py.len payload = Z.land b1 0x0F ->
    body_spec now (0xAA :: b1 :: id_l :: id_h :: payload ++ e :: tl)
      (Continue tl
         (if e =? 0x55
          then [CANFrame.mk (Z.lor id_l (Z.shiftl id_h 8))
                  (Z.land b1 0x0F) payload
                  (Py.bool_of_int (Z.land b1 0x20)) now]
          else []))
| body_unknown (b1 : Z) (tl : list Z) :
    b1 <> 0x55 -> Z.shiftr b1 4 <> 0x0C ->
    body_spec now (0xAA :: b1 :: tl) (Continue (b1 :: tl) []).

End Decoder.

Arguments iteration : clear implicits.
Arguments pass : clear implicits.

(** [data_span L e buffer]: the head of [buffer] is a data-frame span of
    declared length [L], all of its [L + 5] bytes present: the start byte
    0xAA at offset 0, at offset 1 a type byte with high nibble 0xC and low
    nibble [L], and the byte [e] at the terminator offset [L + 4]. *)
Definition data_span (L e : Z) (buffer : list Z) : Prop :=
  Py.getitem buffer 0 = Some 0xAA /\
  (exists t, Py.getitem buffer 1 = Some t /\
             Z.shiftr t 4 = 0x0C /\ Z.land t 0x0F = L) /\
  L + 5 <= Py.len buffer /\
  Py.getitem buffer (L + 4) = Some e.

(** A truncated frame: a lone start byte, a data-frame header with fewer
    than [length + 5] bytes, or a command-frame header with fewer than 20. *)
Definition truncated (buffer : list Z) : Prop :=
  buffer = [0xAA] \/
  (exists t, Py.getitem buffer 0 = Some 0xAA /\ Py.getitem buffer 1 = Some t /\
             Z.shiftr t 4 = 0x0C /\ Py.len buffer < Z.land t 0x0F + 5) \/
  (Py.getitem buffer 0 = Some 0xAA /\ Py.getitem buffer 1 = Some 0x55 /\
   Py.len buffer < 20).

(** The bytes of [test_parse_data_frame]: a standard data frame with
    DLC 8, identifier 0x123 and payload 1..8. *)
Definition test_data : list Z :=
  [0xAA; 0xC8; 0x23; 0x01; 1; 2; 3; 4; 5; 6; 7; 8; 0x55].

(** A clock for the examples: the [k]-th reading is [k]. *)
Definition test_clock : nat -> nat := fun k => k.

(** ** The command encoder and the session *)

(** The exceptions the calls made by the backend raise; all three derive
    from [Exception]. *)
Inductive exn : Type :=
| SerialException   (* serial.Serial(...) or ser.write(...) fails *)
| RuntimeError      (* Thread.start() or Thread.join() fails *)
| AttributeError.   (* a method is called on None *)

(** The transport, as much of pyserial's [Serial] as the backend uses
    (the test's [MockSerial] is the same object): the port is open or
    closed and remembers what was written to it. *)
Module Serial.

Record t : Type := mk { is_open : bool; written : list (list Z) }.

(** [ser.write(data)]; [fails] is the exception the port raises, if any. *)
Definition write (fails : option exn) (data : list Z) (s : t) : exn + t :=
  match fails with
  | Some e => inl e
  | None => inr (mk (is_open s) (written s ++ [data]))
  end.

(** [ser.close()] *)
Definition close (s : t) : t := mk false (written s).

End Serial.

(** A [threading.Thread] object: created, then possibly started. *)
Module Thread.

Record t : Type := mk { started : bool }.

(** [thread.start()]: [fails] is the exception raised when no thread can
    be created; a thread can be started only once. *)
Definition start (fails : option exn) (th : t) : exn + t :=
  if started th then inl RuntimeError
  else match fails with
       | Some e => inl e
       | None => inr (mk true)
       end.

(** [thread.join()], called on the thread itself ([current]) or on
    another thread: joining a thread that was never started raises, and
    so does a thread that joins itself. Otherwise the call returns when
    the thread has left its loop. *)
Definition join (current : bool) (th : t) : exn + unit :=
  if negb (started th) then inl RuntimeError
  else if current then inl RuntimeError
  else inr tt.

End Thread.

(** The attributes of a [CANUSBBackend] object. Observers are kept by
    name. *)
Record CANUSBBackend : Type := mkBackend {
  port : string;
  baudrate : Z;
  can_speed : Z;
  ser : option Serial.t;
  running : bool;
  read_thread : option Thread.t;
  on_frame_received : list nat;
  buffer : list Z
}.

Definition set_ser (v : option Serial.t) (self : CANUSBBackend) :=
  mkBackend (port self) (baudrate self) (can_speed self) v (running self)
    (read_thread self) (on_frame_received self) (buffer self).

Definition set_running (v : bool) (self : CANUSBBackend) :=
  mkBackend (port self) (baudrate self) (can_speed self) (ser self) v
    (read_thread self) (on_frame_received self) (buffer self).

Definition set_read_thread (v : option Thread.t) (self : CANUSBBackend) :=
  mkBackend (port self) (baudrate self) (can_speed self) (ser self)
    (running self) v (on_frame_received self) (buffer self).

Definition set_buffer (v : list Z) (self : CANUSBBackend) :=
  mkBackend (port self) (baudrate self) (can_speed self) (ser self)
    (running self) (read_thread self) (on_frame_received self) v.

Definition set_on_frame_received (v : list nat) (self : CANUSBBackend) :=
  mkBackend (port self) (baudrate self) (can_speed self) (ser self)
    (running self) (read_thread self) v (buffer self).

(** [CANUSBBackend.__init__] *)
Definition __init__ (port : string) (baudrate can_speed : Z) : CANUSBBackend :=
  mkBackend port baudrate can_speed None false None [] [].

(** [add_callback] *)
Definition add_callback (callback : nat) (self : CANUSBBackend)
    : CANUSBBackend :=
  set_on_frame_received (on_frame_received self ++ [callback]) self.

(** What the world outside does at the calls that can fail. *)
Record world : Type := mkWorld {
  serial_Serial : exn + Serial.t;   (* serial.Serial(port, baudrate, ...) *)
  write_fails : option exn;         (* ser.write(cmd) *)
  start_fails : option exn          (* read_thread.start() *)
}.

(** Methods: they change [self] and return a value or raise. *)
Definition method (A : Type) : Type :=
  CANUSBBackend -> CANUSBBackend * (exn + A).

Definition ret {A : Type} (a : A) : method A := fun self => (self, inr a).

Definition raise {A : Type} (e : exn) : method A := fun self => (self, inl e).

Definition bind {A B : Type} (m : method A) (k : A -> method B) : method B :=
  fun self =>
    match m self with
    | (self', inl e) => (self', inl e)
    | (self', inr a) => k a self'
    end.

Definition call {A : Type} (r : exn + A) : method A := fun self => (self, r).

Definition assign (f : CANUSBBackend -> CANUSBBackend) : method unit :=
  fun self => (f self, inr tt).

Definition attr {A : Type} (f : CANUSBBackend -> A) : method A :=
  fun self => (self, inr (f self)).

(** [try: body except Exception: handler] *)
Definition try_except {A : Type} (body : method A) (handler : exn -> method A)
    : method A :=
  fun self =>
    match body self with
    | (self', inl e) => handler e self'
    | (self', inr a) => (self', inr a)
    end.

Declare Scope method_scope.
Delimit Scope method_scope with method.
Notation "x <- m ;; k" := (bind m (fun x => k))
  (at level 100, m at next level, right associativity) : method_scope.
Notation "m ;; k" := (bind m (fun _ => k))
  (at level 100, right associativity) : method_scope.

(** [_generate_checksum] *)
Definition _generate_checksum (data : list Z) : Z :=
  Z.land (Py.sum data) 0xFF.

(** The dict [speed_map] of [_init_adapter]. *)
Definition speed_map : gmap Z Z :=
  list_to_map
    [(1000000, 0x01); (800000, 0x02); (500000, 0x03); (400000, 0x04);
     (250000, 0x05); (200000, 0x06); (125000, 0x07); (100000, 0x08);
     (50000, 0x09); (20000, 0x0a); (10000, 0x0b); (5000, 0x0c)].

(** The bytes [_init_adapter] builds: [cmd] after [cmd.append(checksum)]. *)
Definition init_command (can_speed : Z) : list Z :=
  let speed_byte := default 0x03 (speed_map !! can_speed) in
  let cmd := [0xAA; 0x55; 0x12; speed_byte; 0x01;
              0; 0; 0; 0; 0; 0; 0; 0; 0; 0x01; 0; 0; 0; 0] in
  let checksum := _generate_checksum (Py.slice_from 2 cmd) in
  cmd ++ [checksum].

(** [_init_adapter]: build the command and write it to the port. *)
Definition _init_adapter (w : world) : method unit :=
  (can_speed <- attr can_speed;;
   let cmd := init_command can_speed in
   ser <- attr ser;;
   match ser with
   | None => raise AttributeError
   | Some s =>
       s' <- call (Serial.write (write_fails w) cmd s);;
       assign (set_ser (Some s'))
   end)%method.

(** [connect]. The thread it starts runs [_read_loop], which begins with
    [self.buffer = bytearray()]: the buffer is shown emptied. The rounds
    of the loop that follow are [_read_loop]'s. *)
Definition connect (w : world) : method bool :=
  try_except
    (s <- call (serial_Serial w);;
     assign (set_ser (Some s));;
     _init_adapter w;;
     assign (set_running true);;
     assign (set_read_thread (Some (Thread.mk false)));;
     read_thread <- attr read_thread;;
     match read_thread with
     | None => raise AttributeError
     | Some th =>
         th' <- call (Thread.start (start_fails w) th);;
         assign (set_read_thread (Some th'));;
         assign (set_buffer [])
     end;;
     ret true)%method
    (fun _ => ret false).

(** [disconnect], called on the reader thread itself ([on_reader], as
    when an observer calls it) or on another thread. While [join] waits,
    the reader thread finishes its round; what that round does to the
    buffer is [_read_loop_iteration]'s and is not shown here. *)
Definition disconnect_on (on_reader : bool) : method unit :=
  (assign (set_running false);;
   read_thread <- attr read_thread;;
   match read_thread with
   | Some th => call (Thread.join on_reader th)
   | None => ret tt
   end;;
   ser <- attr ser;;
   match ser with
   | Some s => assign (set_ser (Some (Serial.close s)))
   | None => ret tt
   end)%method.

(** [disconnect] called from a thread other than the reader, as the
    window's [stop_monitoring] calls it. *)
Definition disconnect : method unit := disconnect_on false.


(** ** The read loop *)

Section ReadLoop.

Context {T : Type}.

(** [_read_loop]. The loop goes round while [self.running] holds, a flag
    that another thread clears; [arrivals] lists, for each round, the
    bytes waiting on the port when [_read_loop_iteration] looks (none: the
    round only parses, then sleeps). The frames dispatched, in order, and
    the buffer at the end; [ticks] counts the readings of the clock made
    so far. *)
Fixpoint read_loop_from (clock : nat -> T) (ticks : nat)
    (arrivals : list (list Z)) (buffer : list Z)
    : option (list (CANFrame.t T) * list Z) :=
  match arrivals with
  | [] => Some ([], buffer)
  | in_waiting :: arrivals' =>
      p ← _read_loop_iteration (later ticks clock) in_waiting buffer;
      r ← read_loop_from clock (ticks + length (frames p))%nat arrivals'
            (rest p);
      Some (frames p ++ r.1, r.2)
  end.

(** The loop starts from [self.buffer = bytearray()]. *)
Definition _read_loop (clock : nat -> T) (arrivals : list (list Z))
    : option (list (CANFrame.t T) * list Z) :=
  read_loop_from clock 0%nat arrivals [].

End ReadLoop.

(** ** Measures used in the statements *)

(** The elements of a [bytearray] are ints in [range(256)]. *)
Definition is_byte (b : Z) : Prop := 0 <= b <= 255.

(** The bytes a data frame takes on the wire: start byte, type byte, two
    identifier bytes, the payload and the end byte. *)
Definition wire_size {T : Type} (f : CANFrame.t T) : Z := CANFrame.dlc f + 5.

Definition wire_bytes {T : Type} (fs : list (CANFrame.t T)) : Z :=
  foldr Z.add 0 (wire_size <$> fs).

(** Two iterations on the same buffer at different times differ in the
    timestamps only. *)
Definition same_iteration {T : Type} (it1 it2 : option (iteration T)) : Prop :=
  match it1, it2 with
  | None, None => True
  | Some Break, Some Break => True
  | Some (Continue b1 e1), Some (Continue b2 e2) =>
      b1 = b2 /\ CANFrame.fields <$> e1 = CANFrame.fields <$> e2
  | _, _ => False
  end.

(** ** The monitor window (can_monitor_gui.py) *)

(** The speeds [init_ui] puts in the speed combo box. *)
Definition gui_speeds : list Z :=
  [1000000; 800000; 500000; 400000; 250000; 125000; 100000; 50000; 20000;
   10000].

(** The class [Filter] and the decision of [apply_row_filter]. [lower] is
    [str.lower]. *)
Module Filter.

Record t : Type := mk { ftype : string; value : string; logic : string }.

(** [needle in hay] for two strings *)
Fixpoint contains (needle hay : string) : bool :=
  String.prefix needle hay ||
  match hay with
  | EmptyString => false
  | String _ hay' => contains needle hay'
  end.

(** [needle] occurs in [hay] as a run of consecutive characters. *)
Definition occurs (needle hay : string) : Prop :=
  exists pre post, hay = pre +:+ needle +:+ post.

(** [f.logic == "Include"] and [f.logic == "Exclude"] *)
Definition is_include (f : t) : Prop := String.eqb (logic f) "Include" = true.
Definition is_exclude (f : t) : Prop := String.eqb (logic f) "Exclude" = true.

Section Lower.

Variable lower : string -> string.

(** [Filter.__init__] *)
Definition __init__ (ftype value logic : string) : t :=
  mk ftype (lower value) logic.

(** The string a filter looks at. *)
Definition target (self : t) (id_text data_text : string) : string :=
  if String.eqb (ftype self) "ID" then lower id_text else lower data_text.

(** [Filter.matches] *)
Definition matches (self : t) (id_text data_text : string) : bool :=
  let match_ := contains (value self) (target self id_text data_text) in
  if String.eqb (logic self) "Include" then match_ else negb match_.

(** The value of [show] that [apply_row_filter] passes, negated, to
    [setRowHidden], for a row with the texts [id_text] and [data_hex]. *)
Definition apply_row_filter (filters : list t) (id_text data_hex : string)
    : bool :=
  let show := true in
  let include_filters := filter is_include filters in
  let exclude_filters := filter is_exclude filters in
  let show :=
    match include_filters with
    | [] => show
    | _ :: _ => existsb (fun f => matches f id_text data_hex) include_filters
    end in
  let show :=
    if show && negb (bool_decide (exclude_filters = [])) then
      if existsb (fun f => Bool.eqb (matches f id_text data_hex) false)
           exclude_filters
      then false else show
    else show in
  show.

End Lower.

End Filter.

(** ** Facts about the Python operations *)

Section PyFacts.

Context {A : Type}.
Implicit Types (l : list A) (i : Z).

Lemma len_nonneg l : 0 <= Py.len l.
Proof. unfold Py.len. lia. Qed.

Lemma len_cons (x : A) l : Py.len (x :: l) = Py.len l + 1.
Proof. unfold Py.len. cbn [length]. lia. Qed.

Lemma len_app l1 l2 : Py.len (l1 ++ l2) = Py.len l1 + Py.len l2.
Proof. unfold Py.len. rewrite length_app. lia. Qed.

Lemma getitem_nonneg l i :
  0 <= i -> Py.getitem l i = l !! Z.to_nat i.
Proof.
  intros Hi. unfold Py.getitem.
  destruct (Z.leb_spec 0 i); [reflexivity | lia].
Qed.

Lemma getitem_last l :
  l <> [] -> Py.getitem l (-1) = l !! (length l - 1)%nat.
Proof.
  intros Hl. unfold Py.getitem. cbn [Z.leb Z.compare].
  assert (0 < length l)%nat by (destruct l; [done | cbn; lia]).
  destruct (Z.leb_spec 0 (Py.len l + -1)) as [_ | Hneg];
    unfold Py.len in *; [f_equal; lia | lia].
Qed.

Lemma getitem_snoc l (x : A) : Py.getitem (l ++ [x]) (-1) = Some x.
Proof.
  rewrite getitem_last by (destruct l; done).
  rewrite length_app. cbn [length].
  rewrite lookup_app_r by lia.
  replace (length l + 1 - 1 - length l)%nat with 0%nat by lia.
  reflexivity.
Qed.

Lemma getitem_is_Some l i :
  - Py.len l <= i < Py.len l -> is_Some (Py.getitem l i).
Proof.
  intros Hi. unfold Py.getitem, Py.len in *.
  destruct (Z.leb_spec 0 i).
  - apply lookup_lt_is_Some. lia.
  - destruct (Z.leb_spec 0 (Z.of_nat (length l) + i)); [| lia].
    apply lookup_lt_is_Some. lia.
Qed.

Lemma len_slice_to l b :
  0 <= b <= Py.len l -> Py.len (Py.slice_to b l) = b.
Proof.
  intros Hb. unfold Py.slice_to, Py.len in *. rewrite length_take. lia.
Qed.

Lemma length_slice_from l a :
  length (Py.slice_from a l) = (length l - Z.to_nat a)%nat.
Proof. unfold Py.slice_from. apply length_drop. Qed.

End PyFacts.

(** ** One iteration of the parsing loop *)

Section LoopBody.

Context {T : Type}.
Implicit Types (now : T) (buffer tl : list Z) (clock : nat -> T).

Lemma dlc_range (b1 : Z) : 0 <= Z.land b1 0x0F <= 15.
Proof.
  split.
  - apply Z.land_nonneg. right. lia.
  - pose proof (Z.land_ones b1 4) as H. change (Z.ones 4) with 0x0F in H.
    rewrite H by lia. change (2 ^ 4) with 16.
    pose proof (Z.mod_pos_bound b1 16). lia.
Qed.

(** A type byte whose high nibble is 0xC lies in 0xC0..0xCF. *)
Lemma high_nibble_C (b1 : Z) :
  Z.shiftr b1 4 = 0x0C <-> 0xC0 <= b1 <= 0xCF.
Proof.
  rewrite Z.shiftr_div_pow2 by lia. change (2 ^ 4) with 16.
  Z.div_mod_to_equations. lia.
Qed.

Lemma high_nibble_C_low (b1 : Z) :
  Z.shiftr b1 4 = 0x0C -> Z.land b1 0x0F = b1 - 0xC0.
Proof.
  intros H%high_nibble_C.
  pose proof (Z.land_ones b1 4) as Hm. change (Z.ones 4) with 0x0F in Hm.
  rewrite Hm by lia. change (2 ^ 4) with 16.
  Z.div_mod_to_equations. lia.
Qed.

(** Bit 0x20 is clear in every byte whose high nibble is 0xC. *)
Lemma high_nibble_C_bit5 (b1 : Z) :
  Z.shiftr b1 4 = 0x0C -> Z.land b1 0x20 = 0.
Proof.
  intros H%high_nibble_C.
  assert (Hb : b1 = 0xC0 + (b1 - 0xC0)) by lia.
  assert (Hc : 0 <= b1 - 0xC0 < 16) by lia.
  revert Hb Hc. generalize (b1 - 0xC0). intros d -> Hd.
  assert (Hcases : d = 0 \/ d = 1 \/ d = 2 \/ d = 3 \/ d = 4 \/ d = 5 \/
                   d = 6 \/ d = 7 \/ d = 8 \/ d = 9 \/ d = 10 \/ d = 11 \/
                   d = 12 \/ d = 13 \/ d = 14 \/ d = 15) by lia.
  repeat (destruct Hcases as [-> | Hcases]; [reflexivity |]).
  subst d. reflexivity.
Qed.

(** *** The loop body, branch by branch *)

(** Resynchronization: a first byte other than 0xAA is popped. *)
Lemma loop_body_noise now b0 tl :
  b0 <> 0xAA -> loop_body now (b0 :: tl) = Some (Continue tl []).
Proof.
  intros Hb0. unfold loop_body.
  change (Py.getitem (b0 :: tl) 0) with (Some b0). cbn [mbind option_bind].
  destruct (Z.eqb_spec b0 0xAA); [done | reflexivity].
Qed.

(** A lone start byte: wait for more data. *)
Lemma loop_body_lone now : loop_body now [0xAA] = Some (@Break T).
Proof. reflexivity. Qed.

(** A command/response frame: 20 bytes are dropped once they are all
    there. *)
Lemma loop_body_command now tl :
  loop_body now (0xAA :: 0x55 :: tl) =
  Some (if Py.len tl >=? 18 then Continue (drop 18 tl) [] else Break).
Proof.
  unfold loop_body.
  change (Py.getitem (0xAA :: 0x55 :: tl) 0) with (Some 0xAA).
  change (Py.getitem (0xAA :: 0x55 :: tl) 1) with (Some 0x55).
  cbn [mbind option_bind Z.eqb Pos.eqb negb].
  rewrite !len_cons.
  destruct (Z.ltb_spec (Py.len tl + 1 + 1) 2);
    [pose proof (len_nonneg tl); lia |].
  destruct (Z.geb_spec (Py.len tl + 1 + 1) 20),
           (Z.geb_spec (Py.len tl) 18); try lia; reflexivity.
Qed.

(** A data frame header whose span is not all there yet: wait. *)
Lemma loop_body_data_short now b1 tl :
  Z.shiftr b1 4 = 0x0C ->
  Py.len tl < Z.land b1 0x0F + 3 ->
  loop_body now (0xAA :: b1 :: tl) = Some (@Break T).
Proof.
  intros Hhi Hshort. unfold loop_body.
  change (Py.getitem (0xAA :: b1 :: tl) 0) with (Some 0xAA).
  change (Py.getitem (0xAA :: b1 :: tl) 1) with (Some b1).
  cbn [mbind option_bind Z.eqb Pos.eqb negb].
  rewrite !len_cons.
  destruct (Z.ltb_spec (Py.len tl + 1 + 1) 2);
    [pose proof (len_nonneg tl); lia |].
  apply high_nibble_C in Hhi as Hrange.
  destruct (Z.eqb_spec b1 0x55); [lia |].
  destruct (Z.eqb_spec (Z.shiftr b1 4) 0x0C); [| done].
  cbv zeta.
  destruct (Z.geb_spec (Py.len tl + 1 + 1) (Z.land b1 15 + 5));
    [lia | reflexivity].
Qed.

(** A complete data frame span: it is dropped whole, and decoded into a
    frame when its last byte is the terminator 0x55. *)
Lemma loop_body_data now b1 id_l id_h payload e tl :
  Z.shiftr b1 4 = 0x0C ->
  Py.len payload = Z.land b1 0x0F ->
  loop_body now (0xAA :: b1 :: id_l :: id_h :: payload ++ e :: tl) =
  Some (Continue tl
          (if e =? 0x55
           then [CANFrame.mk (Z.lor id_l (Z.shiftl id_h 8)) (Z.land b1 0x0F)
                   payload (Py.bool_of_int (Z.land b1 0x20)) now]
           else [])).
Proof.
  intros Hhi Hlen.
  set (buffer := 0xAA :: b1 :: id_l :: id_h :: payload ++ e :: tl).
  assert (Hbl : Py.len buffer = Z.land b1 0x0F + 5 + Py.len tl).
  { unfold buffer. rewrite !len_cons, len_app, len_cons. lia. }
  assert (Hn : Z.to_nat (Z.land b1 0x0F + 5) = (4 + (length payload + 1))%nat).
  { unfold Py.len in Hlen. lia. }
  assert (Hfd : Py.slice_to (Z.land b1 0x0F + 5) buffer =
                0xAA :: b1 :: id_l :: id_h :: payload ++ [e]).
  { unfold Py.slice_to, buffer. rewrite Hn. cbn [Nat.add take].
    do 4 f_equal. rewrite take_app_add. reflexivity. }
  assert (Htl : Py.slice_from (Z.land b1 0x0F + 5) buffer = tl).
  { unfold Py.slice_from, buffer. rewrite Hn. cbn [Nat.add drop].
    rewrite drop_app_add. reflexivity. }
  unfold loop_body.
  change (Py.getitem buffer 0) with (Some 0xAA).
  change (Py.getitem buffer 1) with (Some b1).
  cbn [mbind option_bind Z.eqb Pos.eqb negb].
  pose proof (len_nonneg tl). pose proof (dlc_range b1).
  destruct (Z.ltb_spec (Py.len buffer) 2); [lia |].
  apply high_nibble_C in Hhi as Hrange.
  destruct (Z.eqb_spec b1 0x55); [lia |].
  destruct (Z.eqb_spec (Z.shiftr b1 4) 0x0C); [| done].
  cbv zeta.
  destruct (Z.geb_spec (Py.len buffer) (Z.land b1 15 + 5)); [| lia].
  change 15 with 0x0F. rewrite Hfd, Htl.
  change (0xAA :: b1 :: id_l :: id_h :: payload ++ [e])
    with ((0xAA :: b1 :: id_l :: id_h :: payload) ++ [e]).
  rewrite getitem_snoc. cbn [mbind option_bind app].
  destruct (e =? 0x55); [| reflexivity].
  change (Py.getitem (0xAA :: b1 :: id_l :: id_h :: payload ++ [e]) 1)
    with (Some b1).
  change (Py.getitem (0xAA :: b1 :: id_l :: id_h :: payload ++ [e]) 2)
    with (Some id_l).
  change (Py.getitem (0xAA :: b1 :: id_l :: id_h :: payload ++ [e]) 3)
    with (Some id_h).
  cbn [mbind option_bind].
  do 4 f_equal. unfold Py.slice.
  replace (Z.to_nat (4 + Z.land b1 0x0F - 4)) with (length payload)
    by (unfold Py.len in Hlen; lia).
  change (Z.to_nat 4) with 4%nat. cbn [drop].
  apply take_app_length.
Qed.

(** Any other second byte: the start byte is popped. *)
Lemma loop_body_unknown now b1 tl :
  b1 <> 0x55 -> Z.shiftr b1 4 <> 0x0C ->
  loop_body now (0xAA :: b1 :: tl) = Some (Continue (b1 :: tl) []).
Proof.
  intros H55 Hhi. unfold loop_body.
  change (Py.getitem (0xAA :: b1 :: tl) 0) with (Some 0xAA).
  change (Py.getitem (0xAA :: b1 :: tl) 1) with (Some b1).
  cbn [mbind option_bind Z.eqb Pos.eqb negb].
  rewrite !len_cons.
  destruct (Z.ltb_spec (Py.len tl + 1 + 1) 2);
    [pose proof (len_nonneg tl); lia |].
  destruct (Z.eqb_spec b1 0x55); [done |].
  destruct (Z.eqb_spec (Z.shiftr b1 4) 0x0C); [done | reflexivity].
Qed.

(** *** The branches are exhaustive *)

(** A list with at least [n + 3] elements is two identifier bytes, [n]
    payload bytes, an end byte and a tail. *)
Lemma split_span (n : Z) tl :
  0 <= n -> n + 3 <= Py.len tl ->
  exists id_l id_h payload e tl',
    tl = id_l :: id_h :: payload ++ e :: tl' /\ Py.len payload = n.
Proof.
  intros Hn Hlen. unfold Py.len in *.
  destruct tl as [| id_l [| id_h tl]]; cbn [length] in Hlen; try lia.
  exists id_l, id_h, (take (Z.to_nat n) tl).
  destruct (drop (Z.to_nat n) tl) as [| e tl'] eqn:Hdrop.
  { apply (f_equal length) in Hdrop. rewrite length_drop in Hdrop.
    cbn [length] in Hdrop. lia. }
  exists e, tl'. split.
  - rewrite <- Hdrop, take_drop. reflexivity.
  - rewrite length_take. lia.
Qed.

(** The loop body never raises on a buffer that passed the loop test,
    and what it does is one of the seven paths above. *)
Lemma loop_body_spec now buffer :
  buffer <> [] ->
  exists it, loop_body now buffer = Some it /\ body_spec now buffer it.
Proof.
  intros Hne. destruct buffer as [| b0 tl]; [done |]. clear Hne.
  destruct (Z.eq_dec b0 0xAA) as [-> | Hb0].
  2: { eexists. split; [by apply loop_body_noise | by constructor]. }
  destruct tl as [| b1 tl].
  { eexists. split; [apply loop_body_lone | constructor]. }
  destruct (Z.eq_dec b1 0x55) as [-> | H55].
  { eexists. split; [apply loop_body_command |].
    destruct (Z.geb_spec (Py.len tl) 18); by constructor. }
  destruct (Z.eq_dec (Z.shiftr b1 4) 0x0C) as [Hhi | Hhi].
  2: { eexists. split; [by apply loop_body_unknown | by constructor]. }
  destruct (Z_lt_le_dec (Py.len tl) (Z.land b1 0x0F + 3)) as [Hshort | Hge].
  { eexists. split; [by apply loop_body_data_short | by constructor]. }
  destruct (split_span (Z.land b1 0x0F) tl)
    as (id_l & id_h & payload & e & tl' & -> & Hlen);
    [apply dlc_range | done |].
  eexists. split; [by apply loop_body_data | by constructor].
Qed.

(** Every path that loops again has removed at least one byte from the
    head of the buffer, and hands over at most one frame. *)
Lemma body_spec_shrinks now buffer buffer' emitted :
  body_spec now buffer (Continue buffer' emitted) ->
  (length buffer' < length buffer)%nat /\ (length emitted <= 1)%nat.
Proof.
  inversion 1; subst; cbn [length].
  - lia.
  - rewrite length_drop. lia.
  - rewrite length_app. cbn [length]. destruct (_ =? _); cbn; lia.
  - lia.
Qed.

End LoopBody.

(** ** The decode pass *)

Section Pass.

Context {T : Type}.
Implicit Types (now : T) (buffer tl : list Z) (clock : nat -> T)
  (p : pass T).

Lemma while_loop_nil fuel clock ticks :
  while_loop fuel clock ticks [] = Some (mkpass [] [] 0).
Proof. destruct fuel; reflexivity. Qed.

Lemma while_loop_cons fuel clock ticks b0 tl :
  while_loop (S fuel) clock ticks (b0 :: tl) =
  it ← loop_body (clock ticks) (b0 :: tl);
  match it with
  | Break => Some (mkpass [] (b0 :: tl) 1)
  | Continue buffer' emitted =>
      p ← while_loop fuel clock (ticks + length emitted)%nat buffer';
      Some (mkpass (emitted ++ frames p) (rest p) (S (iterations p)))
  end.
Proof.
  cbn [while_loop]. rewrite len_cons.
  destruct (Z.gtb_spec (Py.len tl + 1) 0); [reflexivity |].
  pose proof (len_nonneg tl). lia.
Qed.

(** Fuel equal to the buffer length is enough: the pass returns, and
    the loop body runs at most once per byte. *)
Lemma while_loop_returns fuel clock ticks buffer :
  (length buffer <= fuel)%nat ->
  exists p, while_loop fuel clock ticks buffer = Some p /\
            (iterations p <= length buffer)%nat.
Proof.
  revert ticks buffer. induction fuel as [| fuel IH]; intros ticks buffer Hf.
  - destruct buffer; [| cbn in Hf; lia].
    eexists. split; [reflexivity | cbn; lia].
  - destruct buffer as [| b0 tl].
    { eexists. split; [apply while_loop_nil | cbn; lia]. }
    rewrite while_loop_cons.
    destruct (loop_body_spec (clock ticks) (b0 :: tl))
      as (it & -> & Hspec); [done |].
    cbn [mbind option_bind]. destruct it as [| buffer' emitted].
    { eexists. split; [reflexivity | cbn; lia]. }
    apply body_spec_shrinks in Hspec as [Hlt _].
    destruct (IH (ticks + length emitted)%nat buffer') as (p & -> & Hit);
      [lia |].
    cbn [mbind option_bind]. eexists. split; [reflexivity |].
    cbn [iterations]. lia.
Qed.

(** More fuel does not change the outcome. *)
Lemma while_loop_more_fuel fuel fuel' clock ticks buffer p :
  while_loop fuel clock ticks buffer = Some p ->
  (fuel <= fuel')%nat ->
  while_loop fuel' clock ticks buffer = Some p.
Proof.
  revert fuel' ticks buffer p.
  induction fuel as [| fuel IH]; intros fuel' ticks buffer p Hrun Hle.
  - destruct buffer as [| b0 tl]; [by rewrite while_loop_nil in * |].
    cbn [while_loop] in Hrun. rewrite len_cons in Hrun.
    destruct (Z.gtb_spec (Py.len tl + 1) 0); [done |].
    pose proof (len_nonneg tl). lia.
  - destruct fuel' as [| fuel']; [lia |].
    destruct buffer as [| b0 tl]; [by rewrite while_loop_nil in * |].
    rewrite while_loop_cons in *.
    destruct (loop_body (clock ticks) (b0 :: tl)) as [[| buffer' emitted] |];
      cbn [mbind option_bind] in *; try done.
    destruct (while_loop fuel clock _ buffer') as [q |] eqn:Hq;
      cbn [mbind option_bind] in *; [| done].
    rewrite (IH fuel' _ _ q Hq) by lia. done.
Qed.

Lemma while_loop_fuel fuel clock ticks buffer :
  (length buffer <= fuel)%nat ->
  while_loop fuel clock ticks buffer =
  while_loop (length buffer) clock ticks buffer.
Proof.
  intros Hf.
  destruct (while_loop_returns (length buffer) clock ticks buffer)
    as (p & Hp & _); [done |].
  rewrite Hp. by apply (while_loop_more_fuel (length buffer)).
Qed.

(** Only the readings from [ticks] on matter. *)
Lemma while_loop_later fuel clock ticks buffer :
  while_loop fuel clock ticks buffer =
  while_loop fuel (later ticks clock) 0 buffer.
Proof.
  enough (Hgen : forall (c1 c2 : nat -> T) t1 t2 buf,
    (forall k, c1 (t1 + k)%nat = c2 (t2 + k)%nat) ->
    while_loop fuel c1 t1 buf = while_loop fuel c2 t2 buf).
  { apply Hgen. intros k. unfold later. f_equal. }
  induction fuel as [| fuel IH]; intros c1 c2 t1 t2 buf Hc; [done |].
  destruct buf as [| b0 tl]; [by rewrite !while_loop_nil |].
  rewrite !while_loop_cons.
  replace (c2 t2) with (c1 t1)
    by (rewrite <- (Nat.add_0_r t1), <- (Nat.add_0_r t2); apply Hc).
  destruct (loop_body (c1 t1) (b0 :: tl)) as [[| buffer' emitted] |];
    cbn [mbind option_bind]; try done.
  rewrite (IH c1 c2 (t1 + length emitted)%nat (t2 + length emitted)%nat);
    [done |].
  intros k. rewrite <- !Nat.add_assoc. apply Hc.
Qed.

(** *** [_process_buffer], one iteration at a time *)

Lemma process_buffer_nil clock :
  _process_buffer clock [] = Some (mkpass [] [] 0).
Proof. reflexivity. Qed.

Lemma process_buffer_break clock buffer :
  buffer <> [] ->
  loop_body (clock 0%nat) buffer = Some Break ->
  _process_buffer clock buffer = Some (mkpass [] buffer 1).
Proof.
  intros Hne Hbody. unfold _process_buffer.
  destruct buffer as [| b0 tl]; [done |].
  cbn [length]. rewrite while_loop_cons, Hbody. reflexivity.
Qed.

Lemma process_buffer_continue clock buffer buffer' emitted :
  buffer <> [] ->
  loop_body (clock 0%nat) buffer = Some (Continue buffer' emitted) ->
  _process_buffer clock buffer =
  p ← _process_buffer (later (length emitted) clock) buffer';
  Some (mkpass (emitted ++ frames p) (rest p) (S (iterations p))).
Proof.
  intros Hne Hbody. unfold _process_buffer.
  destruct buffer as [| b0 tl]; [done |].
  cbn [length]. rewrite while_loop_cons, Hbody. cbn [mbind option_bind].
  destruct (loop_body_spec (clock 0%nat) (b0 :: tl))
    as (it & Hit & Hspec); [done |].
  rewrite Hbody in Hit. injection Hit as <-.
  apply body_spec_shrinks in Hspec as [Hlt _]. cbn [length] in Hlt.
  rewrite while_loop_fuel by lia.
  rewrite while_loop_later. reflexivity.
Qed.

(** The pass always returns: no exception escapes and the loop ends. *)
Lemma process_buffer_returns clock buffer :
  exists p, _process_buffer clock buffer = Some p /\
            (iterations p <= length buffer)%nat.
Proof. by apply while_loop_returns. Qed.

(** Induction over the iterations of a pass. *)
Lemma process_buffer_ind (P : (nat -> T) -> list Z -> pass T -> Prop) :
  (forall clock, P clock [] (mkpass [] [] 0)) ->
  (forall clock buffer,
     buffer <> [] ->
     loop_body (clock 0%nat) buffer = Some Break ->
     P clock buffer (mkpass [] buffer 1)) ->
  (forall clock buffer buffer' emitted p,
     buffer <> [] ->
     loop_body (clock 0%nat) buffer = Some (Continue buffer' emitted) ->
     _process_buffer (later (length emitted) clock) buffer' = Some p ->
     P (later (length emitted) clock) buffer' p ->
     P clock buffer
       (mkpass (emitted ++ frames p) (rest p) (S (iterations p)))) ->
  forall clock buffer p,
    _process_buffer clock buffer = Some p -> P clock buffer p.
Proof.
  intros Hnil Hbreak Hcont clock buffer.
  remember (length buffer) as n eqn:Hn.
  revert clock buffer Hn.
  induction n as [n IH] using lt_wf_ind. intros clock buffer -> p Hp.
  destruct buffer as [| b0 tl].
  { rewrite process_buffer_nil in Hp. injection Hp as <-. apply Hnil. }
  destruct (loop_body_spec (clock 0%nat) (b0 :: tl))
    as ([| buffer' emitted] & Hbody & Hspec); [done | |].
  all: assert (Hne : b0 :: tl <> []) by done.
  - rewrite (process_buffer_break _ _ Hne Hbody) in Hp.
    injection Hp as <-. by apply Hbreak.
  - rewrite (process_buffer_continue _ _ _ _ Hne Hbody) in Hp.
    destruct (_process_buffer _ buffer') as [q |] eqn:Hq;
      cbn [mbind option_bind] in Hp; [| done].
    injection Hp as <-.
    pose proof (body_spec_shrinks _ _ _ _ Hspec) as [Hlt _].
    apply (Hcont clock (b0 :: tl) buffer' emitted q); [done | done | done |].
    by eapply IH.
Qed.

(** A buffer that starts with a start byte and a type byte, and holds at
    least [n + 5] bytes, read by offsets. *)
Lemma head_span (n t : Z) buffer :
  Py.getitem buffer 0 = Some 0xAA ->
  Py.getitem buffer 1 = Some t ->
  0 <= n -> n + 5 <= Py.len buffer ->
  exists id_l id_h payload e tl,
    buffer = 0xAA :: t :: id_l :: id_h :: payload ++ e :: tl /\
    Py.len payload = n /\
    Py.getitem buffer 2 = Some id_l /\
    Py.getitem buffer 3 = Some id_h /\
    Py.getitem buffer (n + 4) = Some e /\
    Py.slice 4 (4 + n) buffer = payload /\
    Py.slice_from (n + 5) buffer = tl.
Proof.
  intros H0 H1 Hn Hlen.
  destruct buffer as [| b0 [| b1 tl]]; try done.
  injection H0 as ->. injection H1 as ->.
  rewrite !len_cons in Hlen.
  destruct (split_span n tl) as (id_l & id_h & payload & e & tl' & -> & Hp);
    [lia .. |].
  exists id_l, id_h, payload, e, tl'.
  assert (Hnat : Z.to_nat n = length payload) by (unfold Py.len in Hp; lia).
  repeat split; try done.
  - rewrite getitem_nonneg by lia.
    apply (list_lookup_middle (0xAA :: t :: id_l :: id_h :: payload)).
    cbn [length]. lia.
  - unfold Py.slice. replace (Z.to_nat (4 + n - 4)) with (length payload)
      by lia.
    change (Z.to_nat 4) with 4%nat. cbn [drop]. apply take_app_length.
  - unfold Py.slice_from.
    replace (Z.to_nat (n + 5)) with (4 + (length payload + 1))%nat by lia.
    cbn [Nat.add drop]. by rewrite drop_app_add.
Qed.

End Pass.

(** ** Properties of the decoder *)

Section DecoderProperties.

Context {T : Type}.
Implicit Types (now : T) (buffer tl : list Z) (clock : nat -> T)
  (p : pass T) (f : CANFrame.t T).

(** What the loop body does at a complete data-frame span. *)
Lemma data_span_body now L e buffer :
  data_span L e buffer ->
  exists id_l id_h,
    Py.getitem buffer 2 = Some id_l /\
    Py.getitem buffer 3 = Some id_h /\
    Py.len (Py.slice 4 (4 + L) buffer) = L /\
    Py.len (Py.slice_from (L + 5) buffer) = Py.len buffer - (L + 5) /\
    loop_body now buffer =
    Some (Continue (Py.slice_from (L + 5) buffer)
            (if e =? 0x55
             then [CANFrame.mk (Z.lor id_l (Z.shiftl id_h 8)) L
                     (Py.slice 4 (4 + L) buffer) false now]
             else [])).
Proof.
  intros (H0 & (t & H1 & Hhi & <-) & Hlen & He).
  pose proof (dlc_range t) as Hrange.
  destruct (head_span (Z.land t 0x0F) t buffer)
    as (id_l & id_h & payload & e' & tl & Hbuf & Hp & H2 & H3 & He' & Hsl & Htl);
    [done | done | lia | done |].
  rewrite He in He'. injection He' as <-.
  exists id_l, id_h. rewrite Hsl, Htl. repeat split; try done.
  - rewrite Hbuf, !len_cons, len_app, len_cons. lia.
  - rewrite Hbuf at 1. rewrite (loop_body_data now) by done.
    rewrite (high_nibble_C_bit5 t) by done. reflexivity.
Qed.

(** Frames handed over by an iteration: there is at most one, it comes
    from a span that starts with 0xAA and ends with 0x55, and the
    iteration dropped exactly that span. *)
Lemma emitted_frame_span now buffer buffer' emitted f :
  loop_body now buffer = Some (Continue buffer' emitted) ->
  f ∈ emitted ->
  emitted = [f] /\
  data_span (CANFrame.dlc f) 0x55 buffer /\
  CANFrame.data f = Py.slice 4 (4 + CANFrame.dlc f) buffer /\
  CANFrame.is_extended f = false /\
  buffer' = Py.slice_from (CANFrame.dlc f + 5) buffer /\
  Py.len buffer' = Py.len buffer - (CANFrame.dlc f + 5).
Proof.
  intros Hbody Hin.
  assert (Hne : buffer <> []) by (intros ->; done).
  destruct (loop_body_spec now buffer Hne) as (it & Hit & Hspec).
  rewrite Hbody in Hit. injection Hit as <-.
  inversion Hspec; subst; try by apply elem_of_nil in Hin.
  match goal with H : Z.shiftr _ 4 = _ |- _ => rename H into Hhi end.
  match goal with H : Py.len _ = Z.land _ _ |- _ => rename H into Hlen end.
  rename buffer' into tl.
  destruct (Z.eqb_spec e 0x55) as [He | He]; [| by apply elem_of_nil in Hin].
  subst e.
  apply list_elem_of_singleton in Hin as ->. cbn [CANFrame.dlc CANFrame.data
    CANFrame.is_extended].
  set (buffer := 0xAA :: b1 :: id_l :: id_h :: payload ++ 0x55 :: tl) in *.
  pose proof (dlc_range b1) as Hrange.
  assert (Hspan : data_span (Z.land b1 0x0F) 0x55 buffer).
  { repeat split; [by exists b1 | |].
    - unfold buffer. rewrite !len_cons, len_app, len_cons.
      pose proof (len_nonneg tl). lia.
    - rewrite getitem_nonneg by lia.
      apply (list_lookup_middle (0xAA :: b1 :: id_l :: id_h :: payload)).
      unfold Py.len in Hlen. cbn [length]. lia. }
  destruct (data_span_body now _ _ _ Hspan)
    as (id_l' & id_h' & _ & _ & _ & Hrest & Hbody').
  rewrite Hbody in Hbody'. cbn [Z.eqb Pos.eqb] in Hbody'.
  injection Hbody' as Htl Hid Hdata Hext.
  rewrite <- Htl in Hrest. rewrite (high_nibble_C_bit5 b1) by done.
  done.
Qed.

(** An iteration that loops again leaves a suffix of the buffer. *)
Lemma loop_body_suffix now buffer buffer' emitted :
  loop_body now buffer = Some (Continue buffer' emitted) ->
  exists pre, buffer = pre ++ buffer'.
Proof.
  intros Hbody.
  assert (Hne : buffer <> []) by (intros ->; done).
  destruct (loop_body_spec now buffer Hne) as (it & Hit & Hspec).
  rewrite Hbody in Hit. injection Hit as <-.
  inversion Hspec; subst.
  - by exists [b0].
  - exists (0xAA :: 0x55 :: take 18 tl). cbn [app]. by rewrite take_drop.
  - exists (0xAA :: b1 :: id_l :: id_h :: payload ++ [e]).
    cbn [app]. by rewrite <- app_assoc.
  - by exists [0xAA].
Qed.

(** Every frame of a pass was decoded from a span that starts with 0xAA,
    ends with 0x55 and lies in the buffer the pass was given. *)
Lemma pass_frames_spans clock buffer p f :
  _process_buffer clock buffer = Some p ->
  f ∈ frames p ->
  exists pre suffix,
    buffer = pre ++ suffix /\
    data_span (CANFrame.dlc f) 0x55 suffix /\
    CANFrame.data f = Py.slice 4 (4 + CANFrame.dlc f) suffix.
Proof.
  intros Hp. revert f.
  refine (process_buffer_ind
            (fun _ b q => forall f, f ∈ frames q ->
               exists pre suffix,
                 b = pre ++ suffix /\
                 data_span (CANFrame.dlc f) 0x55 suffix /\
                 CANFrame.data f = Py.slice 4 (4 + CANFrame.dlc f) suffix)
            _ _ _ clock buffer p Hp).
  - intros _ f Hin. by apply elem_of_nil in Hin.
  - intros c b _ _ f Hin. by apply elem_of_nil in Hin.
  - intros c b b' emitted q _ Hbody _ IH f Hin. cbn [frames] in Hin.
    apply elem_of_app in Hin as [Hin | Hin].
    + destruct (emitted_frame_span _ _ _ _ _ Hbody Hin)
        as (_ & Hspan & Hdata & _).
      by exists [], b.
    + destruct (IH f Hin) as (pre & suffix & -> & Hspan & Hdata).
      destruct (loop_body_suffix _ _ _ _ Hbody) as (pre' & ->).
      exists (pre' ++ pre), suffix. by rewrite <- app_assoc.
Qed.

(** ** The decoder, claim by claim *)

(** C1, as amended. A buffer whose head is a well-formed data frame of
    declared length [L]: the iteration at its head hands over exactly one
    frame, of length [L], with the [L] bytes at offset 4 as payload and
    the little-endian 16-bit value of the bytes at offsets 2 and 3 as
    identifier, and drops exactly [L + 5] bytes; the pass then goes on
    with what follows, so that its result is that frame followed by the
    result of the pass over what follows. The pass emits that one frame
    alone, and leaves the buffer empty, when the buffer is the frame. *)
Theorem well_formed_frame_decodes clock (L : Z) buffer :
  0 <= L <= 15 ->
  data_span L 0x55 buffer ->
  exists f,
    CANFrame.dlc f = L /\
    CANFrame.data f = Py.slice 4 (4 + L) buffer /\
    Py.len (CANFrame.data f) = L /\
    (exists id_l id_h,
       Py.getitem buffer 2 = Some id_l /\
       Py.getitem buffer 3 = Some id_h /\
       CANFrame.id f = Z.lor id_l (Z.shiftl id_h 8)) /\
    loop_body (clock 0%nat) buffer =
      Some (Continue (Py.slice_from (L + 5) buffer) [f]) /\
    Py.len (Py.slice_from (L + 5) buffer) = Py.len buffer - (L + 5) /\
    (exists p,
       _process_buffer (later 1 clock) (Py.slice_from (L + 5) buffer)
         = Some p /\
       _process_buffer clock buffer =
         Some (mkpass (f :: frames p) (rest p) (S (iterations p)))) /\
    (Py.len buffer = L + 5 ->
     _process_buffer clock buffer = Some (mkpass [f] [] 1)).
Proof.
  intros _ Hspan.
  destruct (data_span_body (clock 0%nat) _ _ _ Hspan)
    as (id_l & id_h & H2 & H3 & Hpl & Hrest & Hbody).
  cbn [Z.eqb Pos.eqb] in Hbody.
  assert (Hne : buffer <> []) by (intros ->; by destruct Hspan).
  exists (CANFrame.mk (Z.lor id_l (Z.shiftl id_h 8)) L
            (Py.slice 4 (4 + L) buffer) false (clock 0%nat)).
  cbn [CANFrame.dlc CANFrame.data CANFrame.id].
  repeat split; [done | by exists id_l, id_h | done | done | |].
  - destruct (process_buffer_returns (later 1 clock)
                (Py.slice_from (L + 5) buffer)) as (p & Hp & _).
    exists p. split; [done |].
    rewrite (process_buffer_continue _ _ _ _ Hne Hbody).
    cbn [length]. rewrite Hp. reflexivity.
  - intros Hlen. rewrite (process_buffer_continue _ _ _ _ Hne Hbody).
    assert (Py.slice_from (L + 5) buffer = []) as ->.
    { apply length_zero_iff_nil. unfold Py.len in Hrest, Hlen. lia. }
    reflexivity.
Qed.

(** C2. A complete data-frame span whose byte at the terminator offset
    is not 0x55 yields no frame, yet its [length + 5] bytes are dropped
    and the pass goes on behind it. And every frame an iteration hands
    over comes from a span at the head of the buffer that starts with
    0xAA, and that iteration dropped exactly [length + 5] bytes; so every
    frame of a pass comes from a span of [length + 5] bytes of the buffer
    that starts with 0xAA. *)
Theorem bad_terminator_discards_span :
  (forall clock (L e : Z) buffer,
     data_span L e buffer -> e <> 0x55 ->
     loop_body (clock 0%nat) buffer =
       Some (Continue (Py.slice_from (L + 5) buffer) []) /\
     Py.len (Py.slice_from (L + 5) buffer) = Py.len buffer - (L + 5) /\
     exists p,
       _process_buffer clock (Py.slice_from (L + 5) buffer) = Some p /\
       _process_buffer clock buffer =
         Some (mkpass (frames p) (rest p) (S (iterations p)))) /\
  (forall now buffer buffer' emitted f,
     loop_body now buffer = Some (Continue buffer' emitted) ->
     f ∈ emitted ->
     emitted = [f] /\
     Py.getitem buffer 0 = Some 0xAA /\
     CANFrame.dlc f + 5 <= Py.len buffer /\
     buffer' = Py.slice_from (CANFrame.dlc f + 5) buffer /\
     Py.len buffer' = Py.len buffer - (CANFrame.dlc f + 5)) /\
  (forall clock buffer p f,
     _process_buffer clock buffer = Some p ->
     f ∈ frames p ->
     exists pre span post,
       buffer = pre ++ span ++ post /\
       Py.getitem span 0 = Some 0xAA /\
       Py.len span = CANFrame.dlc f + 5).
Proof.
  split; [| split].
  - intros clock L e buffer Hspan He.
    destruct (data_span_body (clock 0%nat) _ _ _ Hspan)
      as (id_l & id_h & _ & _ & _ & Hrest & Hbody).
    destruct (Z.eqb_spec e 0x55); [done |].
    assert (Hne : buffer <> []) by (intros ->; by destruct Hspan).
    repeat split; [done | done |].
    destruct (process_buffer_returns clock (Py.slice_from (L + 5) buffer))
      as (p & Hp & _).
    exists p. split; [done |].
    rewrite (process_buffer_continue _ _ _ _ Hne Hbody).
    change (later (length []) clock) with clock. rewrite Hp. reflexivity.
  - intros now buffer buffer' emitted f Hbody Hin.
    destruct (emitted_frame_span _ _ _ _ _ Hbody Hin)
      as (? & (? & _ & ? & _) & _ & _ & ? & ?).
    done.
  - intros clock buffer p f Hp Hin.
    destruct (pass_frames_spans _ _ _ _ Hp Hin)
      as (pre & suffix & -> & (H0 & (t & H1 & _ & Ht) & Hlen & _) & _).
    pose proof (dlc_range t) as Hrange. rewrite Ht in Hrange.
    exists pre, (Py.slice_to (CANFrame.dlc f + 5) suffix),
      (Py.slice_from (CANFrame.dlc f + 5) suffix).
    split; [| split].
    + unfold Py.slice_to, Py.slice_from. by rewrite take_drop.
    + destruct suffix as [| b0 tl]; [done |]. injection H0 as ->.
      unfold Py.slice_to.
      replace (Z.to_nat (CANFrame.dlc f + 5))
        with (S (Z.to_nat (CANFrame.dlc f + 4))) by lia.
      reflexivity.
    + apply len_slice_to. lia.
Qed.

(** C3. A buffer with no 0xAA byte is drained one byte per iteration:
    no frame is emitted and nothing is left. *)
Theorem noise_is_drained clock buffer :
  0xAA ∉ buffer ->
  _process_buffer clock buffer = Some (mkpass [] [] (length buffer)) /\
  (forall now pre b tl,
     buffer = pre ++ b :: tl ->
     loop_body now (b :: tl) = Some (Continue tl [])).
Proof.
  intros Hno. split.
  - induction buffer as [| b tl IH]; [reflexivity |].
    apply not_elem_of_cons in Hno as [Hb Htl].
    rewrite (process_buffer_continue clock (b :: tl) tl []);
      [| done | by apply loop_body_noise].
    change (later (length []) clock) with clock.
    rewrite (IH Htl). reflexivity.
  - intros now pre b tl ->. apply loop_body_noise.
    intros ->. apply Hno, elem_of_app. right. by left.
Qed.

(** C5. A truncated frame is kept whole: the pass emits nothing and
    leaves the buffer as it was. *)
Theorem truncated_frame_is_retained clock buffer :
  truncated buffer ->
  _process_buffer clock buffer = Some (mkpass [] buffer 1).
Proof.
  intros [-> | [(t & H0 & H1 & Hhi & Hlen) | (H0 & H1 & Hlen)]].
  - reflexivity.
  - destruct buffer as [| b0 [| b1 tl]]; try done.
    injection H0 as ->. injection H1 as ->.
    apply process_buffer_break; [done |].
    apply loop_body_data_short; [done |].
    rewrite !len_cons in Hlen. lia.
  - destruct buffer as [| b0 [| b1 tl]]; try done.
    injection H0 as ->. injection H1 as ->.
    apply process_buffer_break; [done |].
    rewrite loop_body_command. rewrite !len_cons in Hlen.
    destruct (Z.geb_spec (Py.len tl) 18); [lia | done].
Qed.

(** C10. A decode pass over any buffer returns, after at most one
    iteration per byte of the buffer plus one: each iteration leaves the
    loop or drops bytes from the head of the buffer, 1 (resync), 20
    (command frame) or [length + 5] (data frame) of them. *)
Theorem decode_pass_terminates clock buffer :
  (exists p, _process_buffer clock buffer = Some p /\
             (iterations p <= length buffer + 1)%nat) /\
  (forall now,
     buffer <> [] ->
     loop_body now buffer = Some Break \/
     exists (k : nat) emitted,
       loop_body now buffer = Some (Continue (drop k buffer) emitted) /\
       (1 <= k <= length buffer)%nat /\
       (k = 1%nat \/ k = 20%nat \/
        exists t, Py.getitem buffer 1 = Some t /\
                  Z.of_nat k = Z.land t 0x0F + 5)).
Proof.
  split.
  - destruct (process_buffer_returns clock buffer) as (p & Hp & Hit).
    exists p. split; [done | lia].
  - intros now Hne.
    destruct (loop_body_spec now buffer Hne) as (it & -> & Hspec).
    inversion Hspec; subst; try by left.
    + right. exists 1%nat, []. repeat split; cbn [length]; [lia | lia | by left].
    + right. exists 20%nat, []. unfold Py.len in *.
      repeat split; cbn [length]; [lia | lia | right; by left].
    + right.
      match goal with H : Py.len ?payload = _ |- _ =>
        exists (4 + (length payload + 1))%nat; unfold Py.len in H end.
      eexists. split; [| split].
      * cbn [Nat.add drop]. rewrite drop_app_add. reflexivity.
      * cbn [length]. rewrite length_app. cbn [length]. lia.
      * right. right. eexists. split; [reflexivity | lia].
    + right. exists 1%nat, []. repeat split; cbn [length]; [lia | lia | by left].
Qed.

(** No frame the decoder emits is ever marked extended: the data-frame
    branch is entered only when the high nibble of the type byte is 0xC,
    and bit 0x20 is clear in all such bytes. *)
Lemma emitted_frames_never_extended clock buffer p f :
  _process_buffer clock buffer = Some p ->
  f ∈ frames p -> CANFrame.is_extended f = false.
Proof.
  intros Hp. revert f.
  refine (process_buffer_ind
            (fun _ _ q => forall f, f ∈ frames q ->
                                    CANFrame.is_extended f = false)
            _ _ _ clock buffer p Hp).
  - intros _ f Hin. by apply elem_of_nil in Hin.
  - intros c b _ _ f Hin. by apply elem_of_nil in Hin.
  - intros c b b' emitted q _ Hbody _ IH f Hin. cbn [frames] in Hin.
    apply elem_of_app in Hin as [Hin | Hin]; [| by apply IH].
    by destruct (emitted_frame_span _ _ _ _ _ Hbody Hin)
      as (_ & _ & _ & ? & _).
Qed.

(** The pass over a buffer that is exactly one well-formed frame. *)
Lemma whole_frame_pass clock (L : Z) frame :
  data_span L 0x55 frame -> Py.len frame = L + 5 ->
  exists id_l id_h,
    Py.getitem frame 2 = Some id_l /\ Py.getitem frame 3 = Some id_h /\
    _process_buffer clock frame =
    Some (mkpass [CANFrame.mk (Z.lor id_l (Z.shiftl id_h 8)) L
                    (Py.slice 4 (4 + L) frame) false (clock 0%nat)] [] 1).
Proof.
  intros Hspan Hlen.
  destruct (data_span_body (clock 0%nat) _ _ _ Hspan)
    as (id_l & id_h & H2 & H3 & _ & Hrest & Hbody).
  cbn [Z.eqb Pos.eqb] in Hbody.
  assert (Hne : frame <> []) by (intros ->; by destruct Hspan).
  exists id_l, id_h. repeat split; [done | done |].
  rewrite (process_buffer_continue _ _ _ _ Hne Hbody).
  assert (Py.slice_from (L + 5) frame = []) as ->.
  { apply length_zero_iff_nil. unfold Py.len in Hrest, Hlen. lia. }
  reflexivity.
Qed.

(** A proper prefix of a well-formed frame is kept whole by the pass. *)
Lemma frame_prefix_pass clock (L : Z) chunk1 chunk2 :
  data_span L 0x55 (chunk1 ++ chunk2) ->
  Py.len (chunk1 ++ chunk2) = L + 5 ->
  chunk2 <> [] ->
  exists n, _process_buffer clock chunk1 = Some (mkpass [] chunk1 n).
Proof.
  intros (H0 & (t & H1 & Hhi & HL) & _ & _) Hlen Hne.
  assert (0 < Py.len chunk2).
  { unfold Py.len. destruct chunk2; [done | cbn [length]; lia]. }
  rewrite len_app in Hlen.
  destruct chunk1 as [| b0 [| b1 tl]].
  - by exists 0%nat.
  - injection H0 as ->. by exists 1%nat.
  - injection H0 as ->. injection H1 as ->.
    exists 1%nat. apply process_buffer_break; [done |].
    apply loop_body_data_short; [done |].
    rewrite !len_cons in Hlen. lia.
Qed.

(** C4. The bytes of a complete well-formed frame, delivered in two
    consecutive chunks with a decode pass after each, give the same
    single frame (identifier, length, payload, extended flag) and the
    same final buffer as the bytes delivered at once. *)
Theorem split_delivery_equals_batch (c1 c2 c3 : nat -> T) (L : Z)
    frame chunk1 chunk2 :
  data_span L 0x55 frame ->
  Py.len frame = L + 5 ->
  frame = chunk1 ++ chunk2 ->
  exists p1 p2 pb f,
    _read_loop_iteration c1 chunk1 [] = Some p1 /\
    _read_loop_iteration c2 chunk2 (rest p1) = Some p2 /\
    _read_loop_iteration c3 frame [] = Some pb /\
    CANFrame.fields <$> (frames p1 ++ frames p2) = [CANFrame.fields f] /\
    CANFrame.fields <$> frames pb = [CANFrame.fields f] /\
    rest p2 = rest pb /\ rest pb = [].
Proof.
  intros Hspan Hlen Hsplit.
  assert (Hread : forall (c : nat -> T) data,
            _read_loop_iteration c data [] = _process_buffer c data).
  { intros c data. unfold _read_loop_iteration.
    by destruct data; cbn. }
  destruct (whole_frame_pass c3 L frame Hspan Hlen)
    as (id_l & id_h & H2 & H3 & Hb).
  destruct (whole_frame_pass c2 L frame Hspan Hlen)
    as (id_l2 & id_h2 & H22 & H32 & Hb2).
  destruct (whole_frame_pass c1 L frame Hspan Hlen)
    as (id_l1 & id_h1 & H21 & H31 & Hb1).
  rewrite H2 in H22, H21. rewrite H3 in H32, H31.
  injection H22 as <-. injection H32 as <-.
  injection H21 as <-. injection H31 as <-.
  destruct chunk2 as [| b tl].
  - (* the first chunk is the whole frame *)
    rewrite app_nil_r in Hsplit. subst chunk1.
    do 4 eexists. rewrite !Hread.
    split; [exact Hb1 |]. split; [reflexivity |]. split; [exact Hb |].
    done.
  - (* the first chunk is a proper prefix: it is kept for the next pass *)
    subst frame.
    destruct (frame_prefix_pass c1 L chunk1 (b :: tl)) as (n & Hp1);
      [done .. |].
    do 4 eexists. rewrite !Hread.
    split; [exact Hp1 |]. split.
    { unfold _read_loop_iteration. cbn [rest]. rewrite len_cons.
      destruct (Z.gtb_spec (Py.len tl + 1) 0);
        [exact Hb2 | pose proof (len_nonneg tl); lia]. }
    split; [exact Hb |]. done.
Qed.

(** C6, the two end-to-end scenarios. AA C8 23 01 01..08 55 decodes to
    one frame: identifier 0x123, length 8, payload 1..8, not extended.
    With type byte 0xE8 the high nibble is 0xE, not 0xC: the bytes are
    not taken for a data frame but dropped one by one, and no frame is
    emitted. *)
Theorem end_to_end_scenarios clock :
  _process_buffer clock
    [0xAA; 0xC8; 0x23; 0x01; 1; 2; 3; 4; 5; 6; 7; 8; 0x55] =
    Some (mkpass [CANFrame.mk 0x123 8 [1; 2; 3; 4; 5; 6; 7; 8] false
                    (clock 0%nat)] [] 1) /\
  _process_buffer clock
    [0xAA; 0xE8; 0x23; 0x01; 1; 2; 3; 4; 5; 6; 7; 8; 0x55] =
    Some (mkpass [] [] 13).
Proof. split; reflexivity. Qed.

End DecoderProperties.

(** ** Properties of the command encoder and the session *)

(** Every code in [speed_map] is one of 0x01..0x0c. *)
Lemma speed_map_codes (speed code : Z) :
  speed_map !! speed = Some code -> 1 <= code <= 12.
Proof.
  intros H. apply elem_of_list_to_map_2 in H.
  repeat (apply elem_of_cons in H as [[= -> ->] | H]; [lia |]).
  by apply elem_of_nil in H.
Qed.

Lemma init_adapter_writes (w : world) (self : CANUSBBackend) (s : Serial.t) :
  ser self = Some s -> write_fails w = None ->
  _init_adapter w self =
  (set_ser (Some (Serial.mk (Serial.is_open s)
                    (Serial.written s ++ [init_command (can_speed self)])))
     self, inr tt).
Proof.
  intros Hs Hw. unfold _init_adapter, bind, attr, call, assign, Serial.write.
  rewrite Hs, Hw. reflexivity.
Qed.

(** C7. For every requested speed the initialization command is the 20
    bytes 0xAA 0x55 0x12 <speed_code> 0x01, nine 0x00, 0x01, four 0x00
    and a checksum, the sum of the bytes at indices 2 to 18 truncated to
    8 bits; a speed that is not in the speed map gets the code of 500000.
    It is what [_init_adapter] writes to the port. *)
Theorem init_command_layout (speed : Z) :
  exists speed_code checksum,
    init_command speed =
      [0xAA; 0x55; 0x12; speed_code; 0x01] ++ replicate 9 0x00 ++ [0x01] ++
      replicate 4 0x00 ++ [checksum] /\
    length (init_command speed) = 20%nat /\
    checksum = Z.land (Py.sum (Py.slice 2 19 (init_command speed))) 0xFF /\
    0 <= checksum <= 255 /\
    speed_code = default 0x03 (speed_map !! speed) /\
    (speed_map !! speed = None -> speed_map !! 500000 = Some speed_code) /\
    speed_map !! 777 = None /\
    Py.getitem (init_command 777) 3 = Py.getitem (init_command 500000) 3 /\
    (forall w self s,
       can_speed self = speed -> ser self = Some s -> write_fails w = None ->
       _init_adapter w self =
       (set_ser (Some (Serial.mk (Serial.is_open s)
                         (Serial.written s ++ [init_command speed]))) self,
        inr tt)).
Proof.
  exists (default 0x03 (speed_map !! speed)).
  eexists. split; [reflexivity |]. split; [reflexivity |].
  split; [reflexivity |]. split.
  { split.
    - apply Z.land_nonneg. right. lia.
    - pose proof (Z.land_ones (Py.sum (Py.slice_from 2
        [0xAA; 0x55; 0x12; default 0x03 (speed_map !! speed); 0x01;
         0; 0; 0; 0; 0; 0; 0; 0; 0; 0x01; 0; 0; 0; 0])) 8) as H.
      change (Z.ones 8) with 0xFF in H. unfold _generate_checksum.
      rewrite H by lia. change (2 ^ 8) with 256.
      match goal with |- ?x mod 256 <= _ =>
        pose proof (Z.mod_pos_bound x 256) end.
      lia. }
  split; [reflexivity |]. split; [by intros -> |].
  split; [reflexivity |]. split; [reflexivity |].
  intros w self s <-. apply init_adapter_writes.
Qed.

(** C8. When opening the transport fails, [connect] returns [False], no
    exception escapes, and the backend is left as it was: the running
    flag stays false and no thread is created. *)
Theorem connect_open_failure (w : world) (self : CANUSBBackend) (e : exn) :
  serial_Serial w = inl e ->
  connect w self = (self, inr false) /\
  (running self = false -> running (fst (connect w self)) = false) /\
  read_thread (fst (connect w self)) = read_thread self /\
  ser (fst (connect w self)) = ser self.
Proof.
  intros Hopen.
  assert (H : connect w self = (self, inr false)).
  { unfold connect, try_except, bind, call. rewrite Hopen. reflexivity. }
  rewrite H. done.
Qed.

(** [disconnect] returns normally whenever no thread object is held. *)
Lemma disconnect_without_thread (self : CANUSBBackend) :
  read_thread self = None -> snd (disconnect self) = inr tt.
Proof.
  destruct self as [p b c [s |] r t o buf]; cbn; intros ->; reflexivity.
Qed.

(** [disconnect] before any [connect]. *)
Lemma disconnect_never_connected (p : string) (b c : Z) :
  snd (disconnect (__init__ p b c)) = inr tt.
Proof. reflexivity. Qed.

(** The states a failed [connect] leaves behind, from a backend that held
    no thread: either no thread object is held and [disconnect] returns,
    or the transport opened, the command was written, starting the thread
    failed, and [disconnect] raises from [join]. *)
Lemma failed_connect_states (w : world) (self self' : CANUSBBackend) :
  read_thread self = None ->
  connect w self = (self', inr false) ->
  (read_thread self' = None /\ snd (disconnect self') = inr tt) \/
  (is_Some (start_fails w) /\
   read_thread self' = Some (Thread.mk false) /\
   running self' = true /\
   snd (disconnect self') = inl RuntimeError).
Proof.
  intros Hth Hc. unfold connect, try_except, bind, call, assign, attr, ret in Hc.
  destruct (serial_Serial w) as [e | s].
  { injection Hc as <-. left. split; [done |].
    by apply disconnect_without_thread. }
  unfold _init_adapter, bind, attr, call, assign, Serial.write in Hc.
  cbn [ser set_ser] in Hc.
  destruct (write_fails w) as [e |].
  { injection Hc as <-. left. split; [done |].
    by apply disconnect_without_thread. }
  cbn [read_thread set_read_thread set_running Thread.start Thread.started]
    in Hc.
  destruct (start_fails w) as [e |]; [| done].
  injection Hc as <-. right. split; [by eexists |]. done.
Qed.

(** C9, at the failing sequence: the transport opens, the command is
    written, starting the reader thread fails, so [connect] returns
    [False] with the unstarted thread object kept in [read_thread]; the
    [disconnect] that follows raises from [join]. *)
Theorem disconnect_raises_after_failed_start :
  let w := mkWorld (inr (Serial.mk true [])) None (Some RuntimeError) in
  let self := __init__ "MOCK" 2000000 500000 in
  exists self',
    connect w self = (self', inr false) /\
    read_thread self' = Some (Thread.mk false) /\
    snd (disconnect self') = inl RuntimeError.
Proof. eexists. split; [reflexivity |]. split; reflexivity. Qed.

(** ** The theorems at concrete inputs *)

Lemma test_data_span : data_span 8 0x55 test_data.
Proof.
  split; [reflexivity |]. split; [by exists 0xC8 |].
  split; [unfold test_data, Py.len; cbn [length]; lia | reflexivity].
Defined.

(** C1 as first stated, for the whole pass, fails as soon as the buffer
    holds more than the frame. The head of [test_data ++ test_data] is a
    well-formed frame of length 8, and the pass emits two frames and
    consumes 26 bytes; the head of [test_data ++ [1; 2; 3]] is one too,
    and the pass consumes 16 bytes: neither emits one frame and advances
    by 8 + 5 bytes. *)
Lemma well_formed_head_pass_emits_two_frames :
  data_span 8 0x55 (test_data ++ test_data) /\
  _process_buffer test_clock (test_data ++ test_data) =
    Some (mkpass [CANFrame.mk 0x123 8 [1; 2; 3; 4; 5; 6; 7; 8] false 0%nat;
                  CANFrame.mk 0x123 8 [1; 2; 3; 4; 5; 6; 7; 8] false 1%nat]
            [] 2) /\
  ~ (exists p f,
       _process_buffer test_clock (test_data ++ test_data) = Some p /\
       frames p = [f] /\
       Py.len (rest p) = Py.len (test_data ++ test_data) - (8 + 5)) /\
  data_span 8 0x55 (test_data ++ [1; 2; 3]) /\
  _process_buffer test_clock (test_data ++ [1; 2; 3]) =
    Some (mkpass [CANFrame.mk 0x123 8 [1; 2; 3; 4; 5; 6; 7; 8] false 0%nat]
            [] 4) /\
  ~ (exists p f,
       _process_buffer test_clock (test_data ++ [1; 2; 3]) = Some p /\
       frames p = [f] /\
       Py.len (rest p) = Py.len (test_data ++ [1; 2; 3]) - (8 + 5)).
Proof.
  assert (Hspan : forall tl, data_span 8 0x55 (test_data ++ tl)).
  { intros tl. split; [reflexivity |]. split; [by exists 0xC8 |].
    split; [| reflexivity].
    rewrite len_app. pose proof (len_nonneg tl).
    change (Py.len test_data) with 13. lia. }
  split; [apply Hspan |]. split; [reflexivity |]. split.
  { intros (p & f & Hp & Hf & _). vm_compute in Hp.
    injection Hp as <-. discriminate Hf. }
  split; [apply Hspan |]. split; [reflexivity |].
  intros (p & f & Hp & _ & Hlen). vm_compute in Hp.
  injection Hp as <-. vm_compute in Hlen. discriminate Hlen.
Qed.

Lemma well_formed_frame_decodes_test :
  0 <= 8 <= 15 /\
  data_span 8 0x55 test_data /\
  exists f,
    CANFrame.dlc f = 8 /\
    CANFrame.data f = [1; 2; 3; 4; 5; 6; 7; 8] /\
    CANFrame.id f = 0x123 /\
    _process_buffer test_clock test_data = Some (mkpass [f] [] 1).
Proof.
  split; [lia |]. split; [exact test_data_span |].
  destruct (well_formed_frame_decodes test_clock 8 test_data
              ltac:(lia) test_data_span)
    as (f & Hdlc & Hdata & _ & (id_l & id_h & H2 & H3 & Hid) & _ & _ & _ & Hp).
  exists f. injection H2 as <-. injection H3 as <-.
  split; [exact Hdlc |]. split; [exact Hdata |]. split; [exact Hid |].
  apply Hp. reflexivity.
Defined.

Lemma bad_terminator_discards_span_test :
  data_span 1 0x00 [0xAA; 0xC1; 0x23; 0x01; 0x07; 0x00; 0x7F] /\
  0x00 <> 0x55 /\
  loop_body (test_clock 0%nat) [0xAA; 0xC1; 0x23; 0x01; 0x07; 0x00; 0x7F] =
    Some (Continue [0x7F] []).
Proof.
  assert (Hspan : data_span 1 0x00 [0xAA; 0xC1; 0x23; 0x01; 0x07; 0x00; 0x7F]).
  { split; [reflexivity |]. split; [by exists 0xC1 |].
    split; [unfold Py.len; cbn [length]; lia | reflexivity]. }
  assert (Hne : 0x00 <> 0x55) by lia.
  split; [exact Hspan |]. split; [exact Hne |].
  destruct (@bad_terminator_discards_span nat) as [Hbad _].
  destruct (Hbad test_clock 1 0x00 _ Hspan Hne) as [Hbody _].
  exact Hbody.
Defined.

Lemma noise_is_drained_test :
  (0xAA ∉ [0x01; 0x7F; 0x55]) /\
  _process_buffer test_clock [0x01; 0x7F; 0x55] = Some (mkpass [] [] 3).
Proof.
  assert (Hno : 0xAA ∉ [0x01; 0x7F; 0x55]).
  { intros H. repeat (apply elem_of_cons in H as [H | H]; [lia |]).
    by apply elem_of_nil in H. }
  split; [exact Hno |].
  exact (proj1 (noise_is_drained test_clock _ Hno)).
Defined.

Lemma split_delivery_equals_batch_test :
  data_span 8 0x55 test_data /\
  Py.len test_data = 8 + 5 /\
  test_data = take 3 test_data ++ drop 3 test_data /\
  exists p1 p2 pb,
    _read_loop_iteration test_clock (take 3 test_data) [] = Some p1 /\
    _read_loop_iteration test_clock (drop 3 test_data) (rest p1) = Some p2 /\
    _read_loop_iteration test_clock test_data [] = Some pb /\
    CANFrame.fields <$> (frames p1 ++ frames p2) =
      CANFrame.fields <$> frames pb /\
    rest p2 = rest pb.
Proof.
  split; [exact test_data_span |]. split; [reflexivity |].
  split; [reflexivity |].
  destruct (split_delivery_equals_batch test_clock test_clock test_clock 8
              test_data (take 3 test_data) (drop 3 test_data)
              test_data_span eq_refl eq_refl)
    as (p1 & p2 & pb & f & H1 & H2 & H3 & Hinc & Hbatch & Hrest & _).
  exists p1, p2, pb. rewrite Hinc, Hbatch. done.
Defined.

Lemma truncated_frame_is_retained_test :
  truncated [0xAA; 0xC8; 0x23] /\
  _process_buffer test_clock [0xAA; 0xC8; 0x23] =
    Some (mkpass [] [0xAA; 0xC8; 0x23] 1).
Proof.
  assert (Htr : truncated [0xAA; 0xC8; 0x23]).
  { right. left. by exists 0xC8. }
  split; [exact Htr |].
  exact (truncated_frame_is_retained test_clock _ Htr).
Defined.

Lemma connect_open_failure_test :
  let w := mkWorld (inl SerialException) None None in
  let self := __init__ "MOCK" 2000000 500000 in
  serial_Serial w = inl SerialException /\
  connect w self = (self, inr false) /\
  running (fst (connect w self)) = false /\
  read_thread (fst (connect w self)) = None.
Proof.
  intros w self.
  destruct (connect_open_failure w self SerialException eq_refl)
    as (Hc & Hrun & Hth & _).
  split; [reflexivity |]. split; [exact Hc |].
  split; [exact (Hrun eq_refl) | exact Hth].
Defined.

Lemma decode_pass_terminates_test :
  test_data <> [] /\
  (exists p, _process_buffer test_clock test_data = Some p /\
             (iterations p <= length test_data + 1)%nat) /\
  exists (k : nat) emitted,
    loop_body 0%nat test_data = Some (Continue (drop k test_data) emitted) /\
    (1 <= k <= length test_data)%nat.
Proof.
  assert (Hne : test_data <> []) by discriminate.
  destruct (decode_pass_terminates test_clock test_data) as [Hret Hstep].
  split; [exact Hne |]. split; [exact Hret |].
  destruct (Hstep 0%nat Hne) as [Hbreak | (k & emitted & Hbody & Hk & _)].
  - discriminate Hbreak.
  - exists k, emitted. split; [exact Hbody | exact Hk].
Defined.

Lemma init_command_layout_test :
  speed_map !! 777 = None /\
  (exists checksum,
     init_command 777 =
       [0xAA; 0x55; 0x12; 0x03; 0x01] ++ replicate 9 0x00 ++ [0x01] ++
       replicate 4 0x00 ++ [checksum] /\
     checksum = Z.land (Py.sum (Py.slice 2 19 (init_command 777))) 0xFF) /\
  let self := set_ser (Some (Serial.mk true [])) (__init__ "MOCK" 2000000 777) in
  _init_adapter (mkWorld (inr (Serial.mk true [])) None None) self =
  (set_ser (Some (Serial.mk true [init_command 777])) self, inr tt).
Proof.
  destruct (init_command_layout 777)
    as (code & checksum & Hcmd & _ & Hsum & _ & Hcode & _ & Hnone & _ & Hw).
  split; [exact Hnone |]. split.
  - exists checksum. rewrite Hcode, Hnone in Hcmd. split; [exact Hcmd | exact Hsum].
  - intros self.
    exact (Hw (mkWorld (inr (Serial.mk true [])) None None) self
              (Serial.mk true []) eq_refl eq_refl eq_refl).
Defined.

(** ** Further properties of the decoder *)

Section DecoderStream.

Context {T : Type}.
Implicit Types (now : T) (buffer tl chunk : list Z) (clock : nat -> T)
  (p : pass T) (f : CANFrame.t T).

(** *** What the clock does not decide *)

Lemma loop_body_clock now1 now2 buffer :
  same_iteration (loop_body now1 buffer) (loop_body now2 buffer).
Proof.
  destruct buffer as [| b0 tl]; [done |].
  destruct (loop_body_spec now1 (b0 :: tl)) as (it & Hit & Hspec); [done |].
  rewrite Hit. inversion Hspec; subst.
  - by rewrite loop_body_noise.
  - by rewrite loop_body_lone.
  - rewrite loop_body_command.
    destruct (Z.geb_spec (Py.len tl0) 18); [lia | done].
  - rewrite loop_body_command.
    destruct (Z.geb_spec (Py.len tl0) 18); [done | lia].
  - by rewrite loop_body_data_short.
  - rewrite (loop_body_data now2) by done. split; [done |].
    by destruct (_ =? _).
  - by rewrite loop_body_unknown.
Qed.

Lemma process_buffer_clock (c1 c2 : nat -> T) buffer p1 :
  _process_buffer c1 buffer = Some p1 ->
  exists p2,
    _process_buffer c2 buffer = Some p2 /\
    CANFrame.fields <$> frames p2 = CANFrame.fields <$> frames p1 /\
    rest p2 = rest p1 /\ iterations p2 = iterations p1.
Proof.
  intros Hp. revert c2.
  refine (process_buffer_ind
            (fun _ b q => forall c2, exists p2,
               _process_buffer c2 b = Some p2 /\
               CANFrame.fields <$> frames p2 = CANFrame.fields <$> frames q /\
               rest p2 = rest q /\ iterations p2 = iterations q)
            _ _ _ c1 buffer p1 Hp).
  - intros _ c2. by eexists.
  - intros c b Hne Hbody c2.
    pose proof (loop_body_clock (c 0%nat) (c2 0%nat) b) as Hsame.
    rewrite Hbody in Hsame.
    destruct (loop_body (c2 0%nat) b) as [[|] |] eqn:Hb2; try done.
    eexists. split; [by apply process_buffer_break |]. done.
  - intros c b b' emitted q Hne Hbody _ IH c2.
    pose proof (loop_body_clock (c 0%nat) (c2 0%nat) b) as Hsame.
    rewrite Hbody in Hsame.
    destruct (loop_body (c2 0%nat) b) as [[| b2 e2] |] eqn:Hb2; try done.
    destruct Hsame as [<- Hfields].
    destruct (IH (later (length e2) c2)) as (q2 & Hq2 & Hf & Hr & Hi).
    eexists. split.
    { rewrite (process_buffer_continue _ _ _ _ Hne Hb2), Hq2. reflexivity. }
    cbn [frames rest iterations]. rewrite !fmap_app, Hf, Hfields, Hr, Hi.
    done.
Qed.

(** *** Bytes that arrive later *)

(** An iteration that looped again does the same when more bytes follow
    the buffer. *)
Lemma loop_body_app now buffer buffer' emitted chunk :
  loop_body now buffer = Some (Continue buffer' emitted) ->
  loop_body now (buffer ++ chunk) = Some (Continue (buffer' ++ chunk) emitted).
Proof.
  intros Hbody.
  assert (Hne : buffer <> []) by (intros ->; done).
  destruct (loop_body_spec now buffer Hne) as (it & Hit & Hspec).
  rewrite Hbody in Hit. injection Hit as <-.
  inversion Hspec; subst; cbn [app].
  - by apply loop_body_noise.
  - rewrite loop_body_command, len_app.
    pose proof (len_nonneg chunk).
    destruct (Z.geb_spec (Py.len tl + Py.len chunk) 18); [| lia].
    rewrite drop_app_le; [done |]. unfold Py.len in *. lia.
  - rewrite <- app_assoc. cbn [app]. by apply loop_body_data.
  - by apply loop_body_unknown.
Qed.

Lemma process_buffer_app (c1 c2 c3 : nat -> T) buffer chunk p1 :
  _process_buffer c1 buffer = Some p1 ->
  exists p2 p,
    _process_buffer c2 (rest p1 ++ chunk) = Some p2 /\
    _process_buffer c3 (buffer ++ chunk) = Some p /\
    CANFrame.fields <$> frames p =
      (CANFrame.fields <$> frames p1) ++ (CANFrame.fields <$> frames p2) /\
    rest p = rest p2.
Proof.
  intros Hp. revert c2 c3.
  refine (process_buffer_ind
            (fun _ b q => forall c2 c3, exists p2 p,
               _process_buffer c2 (rest q ++ chunk) = Some p2 /\
               _process_buffer c3 (b ++ chunk) = Some p /\
               CANFrame.fields <$> frames p =
                 (CANFrame.fields <$> frames q) ++
                 (CANFrame.fields <$> frames p2) /\
               rest p = rest p2)
            _ _ _ c1 buffer p1 Hp).
  - intros _ c2 c3. cbn [rest frames app fmap list_fmap].
    destruct (process_buffer_returns c2 chunk) as (p2 & Hp2 & _).
    destruct (process_buffer_clock c2 c3 chunk p2 Hp2) as (p & Hp3 & Hf & Hr & _).
    by exists p2, p.
  - intros c b _ _ c2 c3. cbn [rest frames app fmap list_fmap].
    destruct (process_buffer_returns c2 (b ++ chunk)) as (p2 & Hp2 & _).
    destruct (process_buffer_clock c2 c3 _ p2 Hp2) as (p & Hp3 & Hf & Hr & _).
    by exists p2, p.
  - intros c b b' emitted q Hne Hbody _ IH c2 c3.
    cbn [rest frames].
    pose proof (loop_body_app _ _ _ _ chunk Hbody) as Happ.
    pose proof (loop_body_clock (c 0%nat) (c3 0%nat) (b ++ chunk)) as Hsame.
    rewrite Happ in Hsame.
    destruct (loop_body (c3 0%nat) (b ++ chunk)) as [[| b3 e3] |] eqn:Hb3;
      try done.
    destruct Hsame as [<- Hfields].
    destruct (IH c2 (later (length e3) c3)) as (p2 & r & Hp2 & Hr & Hf & Hrest).
    exists p2. eexists. split; [done |]. split.
    { assert (Hne' : b ++ chunk <> []) by (destruct b; done).
      rewrite (process_buffer_continue _ _ _ _ Hne' Hb3), Hr. reflexivity. }
    cbn [frames rest]. rewrite !fmap_app, Hf, <- Hfields, app_assoc. done.
Qed.

(** *** What an iteration tells about the buffer *)

Lemma loop_body_body_spec now buffer it :
  loop_body now buffer = Some it -> body_spec now buffer it.
Proof.
  intros Hbody.
  assert (Hne : buffer <> []) by (intros ->; done).
  destruct (loop_body_spec now buffer Hne) as (it' & Hit & Hspec).
  rewrite Hbody in Hit. by injection Hit as <-.
Qed.

Lemma truncated_break now buffer :
  truncated buffer -> buffer <> [] /\ loop_body now buffer = Some Break.
Proof.
  intros [-> | [(t & H0 & H1 & Hhi & Hlen) | (H0 & H1 & Hlen)]].
  - done.
  - destruct buffer as [| b0 [| b1 tl]]; try done.
    injection H0 as ->. injection H1 as ->. split; [done |].
    apply loop_body_data_short; [done |]. rewrite !len_cons in Hlen. lia.
  - destruct buffer as [| b0 [| b1 tl]]; try done.
    injection H0 as ->. injection H1 as ->. split; [done |].
    rewrite loop_body_command. rewrite !len_cons in Hlen.
    destruct (Z.geb_spec (Py.len tl) 18); [lia | done].
Qed.

Lemma break_truncated now buffer :
  loop_body now buffer = Some Break -> truncated buffer.
Proof.
  intros Hspec%loop_body_body_spec. inversion Hspec; subst.
  - by left.
  - right. right. repeat split. rewrite !len_cons. lia.
  - right. left. exists b1. repeat split; [done |]. rewrite !len_cons. lia.
Qed.

Lemma truncated_short buffer : truncated buffer -> Py.len buffer < 20.
Proof.
  intros [-> | [(t & _ & _ & _ & Hlen) | (_ & _ & Hlen)]]; [done | | done].
  pose proof (dlc_range t). lia.
Qed.

Lemma pass_rest_truncated clock buffer p :
  _process_buffer clock buffer = Some p ->
  rest p = [] \/ truncated (rest p).
Proof.
  intros Hp.
  refine (process_buffer_ind
            (fun _ _ q => rest q = [] \/ truncated (rest q))
            _ _ _ clock buffer p Hp).
  - intros _. by left.
  - intros c b _ Hbody. right. by eapply break_truncated.
  - intros c b b' emitted q _ _ _ IH. exact IH.
Qed.

Lemma pass_rest_stable (c1 c2 : nat -> T) buffer p :
  _process_buffer c1 buffer = Some p ->
  exists n, _process_buffer c2 (rest p) = Some (mkpass [] (rest p) n) /\
            (n <= 1)%nat.
Proof.
  intros [-> | Htr]%pass_rest_truncated.
  - exists 0%nat. split; [done | lia].
  - destruct (truncated_break (c2 0%nat) _ Htr) as [Hne Hbody].
    exists 1%nat. split; [by apply process_buffer_break | lia].
Qed.

Lemma read_loop_iteration_app clock chunk buffer :
  _read_loop_iteration clock chunk buffer =
  _process_buffer clock (buffer ++ chunk).
Proof.
  unfold _read_loop_iteration. destruct chunk as [| b chunk].
  - by rewrite app_nil_r.
  - rewrite len_cons. pose proof (len_nonneg chunk).
    destruct (Z.gtb_spec (Py.len chunk + 1) 0); [done | lia].
Qed.

(** *** Delivery in pieces *)

(** X1. Bytes delivered to [_read_loop_iteration] in two pieces, with a parse
    after each, give the frames (timestamps apart) and the final buffer
    that they give delivered at once, whatever the buffer held before and
    wherever the cut falls. *)
Theorem incremental_delivery_equals_batch (c1 c2 c3 : nat -> T)
    buffer chunk1 chunk2 :
  exists p1 p2 pb,
    _read_loop_iteration c1 chunk1 buffer = Some p1 /\
    _read_loop_iteration c2 chunk2 (rest p1) = Some p2 /\
    _read_loop_iteration c3 (chunk1 ++ chunk2) buffer = Some pb /\
    CANFrame.fields <$> frames pb =
      (CANFrame.fields <$> frames p1) ++ (CANFrame.fields <$> frames p2) /\
    rest pb = rest p2.
Proof.
  rewrite !read_loop_iteration_app.
  destruct (process_buffer_returns c1 (buffer ++ chunk1)) as (p1 & Hp1 & _).
  destruct (process_buffer_app c1 c2 c3 _ chunk2 p1 Hp1)
    as (p2 & pb & Hp2 & Hpb & Hf & Hr).
  exists p1, p2, pb. rewrite read_loop_iteration_app, app_assoc. done.
Qed.

(** X3. What is left in the buffer after a pass is nothing, or a truncated
    frame: it starts with 0xAA and is shorter than 20 bytes. *)
Theorem retained_buffer_is_truncated_frame clock buffer :
  exists p,
    _process_buffer clock buffer = Some p /\
    (rest p = [] \/ truncated (rest p)) /\
    Py.len (rest p) < 20 /\
    (forall b, Py.getitem (rest p) 0 = Some b -> b = 0xAA).
Proof.
  destruct (process_buffer_returns clock buffer) as (p & Hp & _).
  exists p. split; [done |].
  destruct (pass_rest_truncated _ _ _ Hp) as [Hnil | Htr].
  - rewrite Hnil. split; [by left |]. done.
  - split; [by right |]. split; [by apply truncated_short |].
    intros b Hb.
    destruct Htr as [Hr | [(t & H0 & _) | (H0 & _)]];
      [rewrite Hr in Hb | rewrite H0 in Hb ..]; by injection Hb.
Qed.

(** X4. A second pass over what a pass left behind emits nothing and leaves
    it as it is. *)
Theorem second_pass_does_nothing (c1 c2 : nat -> T) buffer :
  exists p n,
    _process_buffer c1 buffer = Some p /\
    _process_buffer c2 (rest p) = Some (mkpass [] (rest p) n) /\
    (n <= 1)%nat.
Proof.
  destruct (process_buffer_returns c1 buffer) as (p & Hp & _).
  destruct (pass_rest_stable c1 c2 buffer p Hp) as (n & Hn & Hle).
  by exists p, n.
Qed.

(** *** The read loop *)

Lemma read_loop_from_batch clock (c' : nat -> T) ticks arrivals buffer :
  buffer = [] \/ truncated buffer ->
  exists fs buf pb,
    read_loop_from clock ticks arrivals buffer = Some (fs, buf) /\
    _process_buffer c' (buffer ++ concat arrivals) = Some pb /\
    CANFrame.fields <$> fs = CANFrame.fields <$> frames pb /\
    buf = rest pb.
Proof.
  revert ticks buffer.
  induction arrivals as [| data arrivals IH]; intros ticks buffer Hstable.
  - cbn [read_loop_from concat]. rewrite app_nil_r.
    exists [], buffer. destruct Hstable as [-> | Htr].
    + by eexists.
    + destruct (truncated_break (c' 0%nat) _ Htr) as [Hne Hbody].
      eexists. split; [done |]. split; [by apply process_buffer_break |]. done.
  - cbn [read_loop_from concat]. rewrite read_loop_iteration_app.
    destruct (process_buffer_returns (later ticks clock) (buffer ++ data))
      as (p & Hp & _).
    rewrite Hp. cbn [mbind option_bind].
    destruct (IH (ticks + length (frames p))%nat (rest p)
                (pass_rest_truncated _ _ _ Hp))
      as (fs & buf & pb' & Hloop & Hpb' & Hf' & Hbuf).
    rewrite Hloop. cbn [mbind option_bind fst snd].
    destruct (process_buffer_app _ c' c' _ (concat arrivals) p Hp)
      as (p2 & pb & Hp2 & Hpb & Hf & Hr).
    rewrite Hpb' in Hp2. injection Hp2 as <-.
    exists (frames p ++ fs), buf, pb. rewrite app_assoc.
    split; [done |]. split; [done |].
    rewrite fmap_app, Hf, Hf', Hbuf, Hr. done.
Qed.

(** X2. However the bytes of a stream are cut into arrivals, the read loop
    dispatches the frames (timestamps apart), and ends with the buffer,
    of a single pass over the whole stream. *)
Theorem read_loop_equals_single_pass clock (c' : nat -> T) arrivals :
  exists fs buf pb,
    _read_loop clock arrivals = Some (fs, buf) /\
    _process_buffer c' (concat arrivals) = Some pb /\
    CANFrame.fields <$> fs = CANFrame.fields <$> frames pb /\
    buf = rest pb.
Proof.
  apply (read_loop_from_batch clock c' 0%nat arrivals []). by left.
Qed.

(** *** Where the frames come from *)

(** The frame an iteration hands over, read off the head of the buffer. *)
Lemma emitted_frame_origin now buffer buffer' emitted f :
  loop_body now buffer = Some (Continue buffer' emitted) ->
  f ∈ emitted ->
  exists t id_l id_h payload,
    buffer = 0xAA :: t :: id_l :: id_h :: payload ++ 0x55 :: buffer' /\
    Z.shiftr t 4 = 0x0C /\
    Py.len payload = Z.land t 0x0F /\
    emitted = [f] /\
    f = CANFrame.mk (Z.lor id_l (Z.shiftl id_h 8)) (Z.land t 0x0F) payload
          false now.
Proof.
  intros Hspec%loop_body_body_spec Hin.
  inversion Hspec; subst; try by apply elem_of_nil in Hin.
  match goal with H : Z.shiftr _ 4 = _ |- _ => rename H into Hhi end.
  destruct (Z.eqb_spec e 0x55) as [He | He]; [| by apply elem_of_nil in Hin].
  subst e. rewrite (high_nibble_C_bit5 b1 Hhi) in Hin |- *.
  apply list_elem_of_singleton in Hin as ->.
  by exists b1, id_l, id_h, payload.
Qed.

Lemma pass_frame_origin clock buffer p f :
  _process_buffer clock buffer = Some p ->
  f ∈ frames p ->
  exists pre t id_l id_h payload tl,
    buffer = pre ++ 0xAA :: t :: id_l :: id_h :: payload ++ 0x55 :: tl /\
    Z.shiftr t 4 = 0x0C /\
    Py.len payload = Z.land t 0x0F /\
    CANFrame.fields f =
      (Z.lor id_l (Z.shiftl id_h 8), Z.land t 0x0F, payload, false).
Proof.
  intros Hp. revert f.
  refine (process_buffer_ind
            (fun _ b q => forall f, f ∈ frames q ->
               exists pre t id_l id_h payload tl,
                 b = pre ++ 0xAA :: t :: id_l :: id_h :: payload ++ 0x55 :: tl /\
                 Z.shiftr t 4 = 0x0C /\
                 Py.len payload = Z.land t 0x0F /\
                 CANFrame.fields f =
                   (Z.lor id_l (Z.shiftl id_h 8), Z.land t 0x0F, payload,
                    false))
            _ _ _ clock buffer p Hp).
  - intros _ f Hin. by apply elem_of_nil in Hin.
  - intros c b _ _ f Hin. by apply elem_of_nil in Hin.
  - intros c b b' emitted q _ Hbody _ IH f Hin. cbn [frames] in Hin.
    apply elem_of_app in Hin as [Hin | Hin].
    + destruct (emitted_frame_origin _ _ _ _ _ Hbody Hin)
        as (t & id_l & id_h & payload & -> & Hhi & Hlen & _ & ->).
      by exists [], t, id_l, id_h, payload, b'.
    + destruct (IH f Hin)
        as (pre & t & id_l & id_h & payload & tl & -> & Hhi & Hlen & Hf).
      destruct (loop_body_suffix _ _ _ _ Hbody) as (pre' & ->).
      exists (pre' ++ pre), t, id_l, id_h, payload, tl.
      by rewrite <- app_assoc.
Qed.

(** Two bytes make a 16-bit value: [lo | (hi << 8)] is [lo + 256 * hi]. *)
Lemma lor_shiftl_bytes (lo hi : Z) :
  is_byte lo -> is_byte hi ->
  Z.lor lo (Z.shiftl hi 8) = lo + 256 * hi.
Proof.
  intros Hlo Hhi. unfold is_byte in *.
  assert (Hdisjoint : Z.land lo (Z.shiftl hi 8) = 0).
  { apply Z.bits_inj'. intros n Hn.
    rewrite Z.land_spec, Z.bits_0.
    destruct (Z_lt_le_dec n 8).
    - rewrite Z.shiftl_spec_low by lia. apply andb_false_r.
    - rewrite (Z.bits_above_log2 lo n); [done | lia |].
      destruct (Z.eq_dec lo 0) as [-> | Hnz]; [cbn; lia |].
      apply Z.log2_lt_pow2; [lia |].
      assert (2 ^ 8 <= 2 ^ n) by (apply Z.pow_le_mono_r; lia).
      change (2 ^ 8) with 256 in *. lia. }
  rewrite <- Z.lxor_lor by done.
  rewrite <- Z.add_nocarry_lxor by done.
  rewrite Z.shiftl_mul_pow2 by lia. change (2 ^ 8) with 256. lia.
Qed.

(** X6. Every frame of a pass has a length between 0 and 15, a payload of
    that many bytes, and is not marked extended. *)
Theorem emitted_frames_are_well_formed clock buffer :
  exists p,
    _process_buffer clock buffer = Some p /\
    forall f, f ∈ frames p ->
      0 <= CANFrame.dlc f <= 15 /\
      Py.len (CANFrame.data f) = CANFrame.dlc f /\
      CANFrame.is_extended f = false.
Proof.
  destruct (process_buffer_returns clock buffer) as (p & Hp & _).
  exists p. split; [done |]. intros f Hin.
  destruct (pass_frame_origin _ _ _ _ Hp Hin)
    as (pre & t & id_l & id_h & payload & tl & _ & _ & Hlen & Hf).
  unfold CANFrame.fields in Hf. injection Hf as _ -> -> ->.
  split; [apply dlc_range | done].
Qed.

(** X7. When the buffer holds bytes, the identifier of every frame of a pass
    is a 16-bit value, low byte first, and the payload holds bytes. *)
Theorem identifier_is_16_bits clock buffer :
  Forall is_byte buffer ->
  exists p,
    _process_buffer clock buffer = Some p /\
    forall f, f ∈ frames p ->
      0 <= CANFrame.id f <= 0xFFFF /\
      Forall is_byte (CANFrame.data f) /\
      exists pre id_l id_h tl,
        buffer = pre ++ id_l :: id_h :: CANFrame.data f ++ 0x55 :: tl /\
        CANFrame.id f = id_l + 256 * id_h.
Proof.
  intros Hbytes.
  destruct (process_buffer_returns clock buffer) as (p & Hp & _).
  exists p. split; [done |]. intros f Hin.
  destruct (pass_frame_origin _ _ _ _ Hp Hin)
    as (pre & t & id_l & id_h & payload & tl & -> & _ & _ & Hf).
  unfold CANFrame.fields in Hf. injection Hf as -> _ -> _.
  apply Forall_app in Hbytes as [_ Hbytes].
  apply Forall_cons in Hbytes as [_ Hbytes].
  apply Forall_cons in Hbytes as [_ Hbytes].
  apply Forall_cons in Hbytes as [Hlo Hbytes].
  apply Forall_cons in Hbytes as [Hhi Hbytes].
  apply Forall_app in Hbytes as [Hpayload _].
  rewrite (lor_shiftl_bytes _ _ Hlo Hhi).
  split; [unfold is_byte in *; lia |]. split; [done |].
  exists (pre ++ [0xAA; t]), id_l, id_h, tl.
  by rewrite <- app_assoc.
Qed.

(** *** What a pass consumes *)

Lemma wire_bytes_app (fs1 fs2 : list (CANFrame.t T)) :
  wire_bytes (fs1 ++ fs2) = wire_bytes fs1 + wire_bytes fs2.
Proof.
  unfold wire_bytes. induction fs1 as [| f fs1 IH]; cbn; [done |].
  cbn in IH. rewrite IH. lia.
Qed.

(** An iteration that loops again drops a prefix that covers the frame
    it hands over. *)
Lemma continue_consumes now buffer buffer' emitted :
  loop_body now buffer = Some (Continue buffer' emitted) ->
  exists pre,
    buffer = pre ++ buffer' /\
    wire_bytes emitted <= Py.len pre /\
    5 * Py.len emitted <= Py.len pre.
Proof.
  intros Hspec%loop_body_body_spec. inversion Hspec; subst.
  - by exists [b0].
  - exists (0xAA :: 0x55 :: take 18 tl). cbn [app]. rewrite take_drop.
    split; [done |]. rewrite !len_cons.
    unfold wire_bytes, Py.len. cbn [fmap list_fmap foldr length]. lia.
  - exists (0xAA :: b1 :: id_l :: id_h :: payload ++ [e]).
    cbn [app]. rewrite <- app_assoc. split; [done |].
    rewrite !len_cons, len_app, len_cons.
    pose proof (dlc_range b1). pose proof (len_nonneg payload).
    destruct (e =? 0x55); unfold wire_bytes, wire_size;
      cbn [fmap list_fmap foldr CANFrame.dlc]; unfold Py.len in *;
      cbn [length]; lia.
  - by exists [0xAA].
Qed.

(** X5. A pass splits the buffer into what it consumed and what it keeps; the
    consumed part is at least as long as the frames emitted take on the
    wire, 5 bytes and the payload each. *)
Theorem consumed_bytes_cover_frames clock buffer :
  exists p consumed,
    _process_buffer clock buffer = Some p /\
    buffer = consumed ++ rest p /\
    wire_bytes (frames p) <= Py.len consumed /\
    5 * Py.len (frames p) <= Py.len consumed.
Proof.
  destruct (process_buffer_returns clock buffer) as (p & Hp & _).
  exists p.
  enough (exists consumed, buffer = consumed ++ rest p /\
            wire_bytes (frames p) <= Py.len consumed /\
            5 * Py.len (frames p) <= Py.len consumed)
    as (consumed & ?); [by exists consumed |].
  refine (process_buffer_ind
            (fun _ b q => exists consumed, b = consumed ++ rest q /\
               wire_bytes (frames q) <= Py.len consumed /\
               5 * Py.len (frames q) <= Py.len consumed)
            _ _ _ clock buffer p Hp).
  - intros _. by exists [].
  - intros c b _ _. by exists [].
  - intros c b b' emitted q _ Hbody _ (consumed & Hb' & Hw & Hn).
    destruct (continue_consumes _ _ _ _ Hbody) as (pre & -> & Hw' & Hn').
    exists (pre ++ consumed). cbn [frames rest].
    rewrite <- app_assoc, <- Hb', wire_bytes_app, !len_app.
    split; [done |]. lia.
Qed.

(** *** Timestamps *)


(** *** Resynchronization *)

(** X9. Noise without a start byte in front of a buffer is dropped byte by
    byte; the pass then does what it does on the buffer alone. *)
Theorem noise_prefix_is_skipped clock noise buffer :
  0xAA ∉ noise ->
  exists p,
    _process_buffer clock buffer = Some p /\
    _process_buffer clock (noise ++ buffer) =
      Some (mkpass (frames p) (rest p) (length noise + iterations p)).
Proof.
  intros Hno.
  destruct (process_buffer_returns clock buffer) as (p & Hp & _).
  exists p. split; [done |].
  induction noise as [| b noise IH]; [by destruct p |].
  apply not_elem_of_cons in Hno as [Hb Hnoise].
  cbn [app length Nat.add].
  rewrite (process_buffer_continue clock (b :: noise ++ buffer)
             (noise ++ buffer) []); [| done | by apply loop_body_noise].
  change (later (length []) clock) with clock.
  rewrite (IH Hnoise). reflexivity.
Qed.

(** X10. A start byte followed by a byte that is neither 0x55 nor of high
    nibble 0xC costs that start byte alone: parsing resumes at the byte
    that follows it. *)
Theorem unknown_type_byte_costs_one_byte clock (b1 : Z) tl :
  b1 <> 0x55 -> Z.shiftr b1 4 <> 0x0C ->
  exists p,
    _process_buffer clock (b1 :: tl) = Some p /\
    _process_buffer clock (0xAA :: b1 :: tl) =
      Some (mkpass (frames p) (rest p) (S (iterations p))).
Proof.
  intros H55 Hhi.
  destruct (process_buffer_returns clock (b1 :: tl)) as (p & Hp & _).
  exists p. split; [done |].
  rewrite (process_buffer_continue clock (0xAA :: b1 :: tl) (b1 :: tl) []);
    [| done | by apply loop_body_unknown].
  change (later (length []) clock) with clock. by rewrite Hp.
Qed.

(** *** Command frames *)

Lemma command_frame_pass clock body tl :
  Py.len body = 18 ->
  exists p,
    _process_buffer clock tl = Some p /\
    _process_buffer clock (0xAA :: 0x55 :: body ++ tl) =
      Some (mkpass (frames p) (rest p) (S (iterations p))).
Proof.
  intros Hlen.
  destruct (process_buffer_returns clock tl) as (p & Hp & _).
  exists p. split; [done |].
  rewrite (process_buffer_continue clock (0xAA :: 0x55 :: body ++ tl) tl []);
    [| done |].
  - change (later (length []) clock) with clock. by rewrite Hp.
  - rewrite loop_body_command, len_app. pose proof (len_nonneg tl).
    destruct (Z.geb_spec (Py.len body + Py.len tl) 18); [| lia].
    rewrite drop_app_length'; [done |]. unfold Py.len in Hlen. lia.
Qed.

(** X11. A complete command/response frame, 0xAA 0x55 and 18 more bytes, is
    dropped without a frame whatever those bytes are, and parsing goes on
    behind it. The adapter's own initialization command, for any speed,
    is such a frame. *)
Theorem command_frames_are_swallowed :
  (forall clock body tl,
     Py.len body = 18 ->
     exists p,
       _process_buffer clock tl = Some p /\
       _process_buffer clock (0xAA :: 0x55 :: body ++ tl) =
         Some (mkpass (frames p) (rest p) (S (iterations p)))) /\
  (forall clock speed tl,
     exists p,
       _process_buffer clock tl = Some p /\
       _process_buffer clock (init_command speed ++ tl) =
         Some (mkpass (frames p) (rest p) (S (iterations p)))).
Proof.
  split; [exact command_frame_pass |].
  intros clock speed tl.
  by apply (command_frame_pass clock (drop 2 (init_command speed)) tl).
Qed.

End DecoderStream.

(** ** Further properties of the command encoder *)

Lemma sum_from (data : list Z) (start : Z) :
  fold_left Z.add data start = start + Py.sum data.
Proof.
  unfold Py.sum. revert start.
  induction data as [| b data IH]; intros start; cbn [fold_left]; [lia |].
  rewrite (IH (start + b)), (IH (0 + b)). lia.
Qed.

Lemma sum_app (data1 data2 : list Z) :
  Py.sum (data1 ++ data2) = Py.sum data1 + Py.sum data2.
Proof. unfold Py.sum at 1. rewrite fold_left_app. apply sum_from. Qed.

Lemma sum_permutation (data1 data2 : list Z) :
  data1 ≡ₚ data2 -> Py.sum data1 = Py.sum data2.
Proof.
  induction 1 as [| b l1 l2 _ IH | a b l | l1 l2 l3 _ IH1 _ IH2].
  - done.
  - change (b :: l1) with ([b] ++ l1). change (b :: l2) with ([b] ++ l2).
    rewrite !sum_app. lia.
  - change (b :: a :: l) with ([b] ++ [a] ++ l).
    change (a :: b :: l) with ([a] ++ [b] ++ l).
    rewrite !sum_app. lia.
  - congruence.
Qed.

Lemma checksum_mod (data : list Z) :
  _generate_checksum data = Py.sum data mod 256.
Proof.
  unfold _generate_checksum.
  pose proof (Z.land_ones (Py.sum data) 8) as H.
  change (Z.ones 8) with 0xFF in H. rewrite H by lia. reflexivity.
Qed.

(** X12. The checksum is a byte, the sum of the data modulo 256. It is
    additive over concatenation, and blind to the order of the bytes. *)
Theorem checksum_is_additive_and_order_blind (data1 data2 : list Z) :
  0 <= _generate_checksum data1 <= 255 /\
  _generate_checksum data1 = Py.sum data1 mod 256 /\
  _generate_checksum (data1 ++ data2) =
    (_generate_checksum data1 + _generate_checksum data2) mod 256 /\
  (data1 ≡ₚ data2 -> _generate_checksum data1 = _generate_checksum data2).
Proof.
  rewrite !checksum_mod, sum_app.
  split; [pose proof (Z.mod_pos_bound (Py.sum data1) 256); lia |].
  split; [done |]. split.
  - apply Z.add_mod. lia.
  - intros Hperm. by rewrite (sum_permutation _ _ Hperm).
Qed.

(** No two speeds of [speed_map] share a code. *)
Lemma speed_map_injective (speed1 speed2 code : Z) :
  speed_map !! speed1 = Some code -> speed_map !! speed2 = Some code ->
  speed1 = speed2.
Proof.
  intros H1 H2.
  apply elem_of_list_to_map_2 in H1. apply elem_of_list_to_map_2 in H2.
  match type of H1 with _ ∈ ?l =>
    assert (Hall : Forall (fun x : Z * Z =>
                     Forall (fun y : Z * Z => x.2 = y.2 -> x.1 = y.1) l) l)
  end.
  { repeat (constructor;
            [repeat (constructor;
                     [cbn; intros H; first [reflexivity | discriminate H] |]);
             constructor |]).
    constructor. }
  rewrite Forall_forall in Hall. specialize (Hall _ H1).
  rewrite Forall_forall in Hall. exact (Hall _ H2 eq_refl).
Qed.

(** X13. For the speeds of [speed_map] the command tells the speed: two such
    speeds with the same command are the same speed. The checksum byte
    of every command is 0x14 plus the speed code, without wrap-around.
    Every speed the monitor window offers is in [speed_map]. *)
Theorem init_command_determines_speed (speed1 speed2 : Z) :
  is_Some (speed_map !! speed1) -> is_Some (speed_map !! speed2) ->
  (init_command speed1 = init_command speed2 -> speed1 = speed2) /\
  (exists code, speed_map !! speed1 = Some code /\ 1 <= code <= 12 /\
                Py.getitem (init_command speed1) 3 = Some code /\
                Py.getitem (init_command speed1) 19 = Some (0x14 + code)) /\
  Forall (fun speed => is_Some (speed_map !! speed)) gui_speeds.
Proof.
  intros [code1 H1] [code2 H2].
  pose proof (speed_map_codes _ _ H1) as Hc1.
  split; [| split].
  - unfold init_command. rewrite H1, H2. cbn [default].
    intros [= Hcode _]. subst code2. by eapply speed_map_injective.
  - exists code1. split; [done |]. split; [done |].
    unfold init_command. rewrite H1. cbn [default].
    split; [reflexivity |].
    change (Py.getitem _ 19) with
      (Some (_generate_checksum
               [0x12; code1; 0x01; 0; 0; 0; 0; 0; 0; 0; 0; 0; 0x01; 0; 0; 0; 0])).
    f_equal. rewrite checksum_mod.
    replace (Py.sum _) with (0x14 + code1) by (unfold Py.sum; cbn; lia).
    apply Z.mod_small. lia.
  - unfold gui_speeds. repeat constructor; by eexists.
Qed.

(** ** Further properties of the session *)

(** X14. [_init_adapter] raises only when there is no port or the port
    refuses the write, and then it has changed nothing. *)
Theorem init_adapter_failure_changes_nothing (w : world)
    (self self' : CANUSBBackend) (e : exn) :
  _init_adapter w self = (self', inl e) ->
  self' = self /\
  ((ser self = None /\ e = AttributeError) \/
   (is_Some (ser self) /\ write_fails w = Some e)).
Proof.
  unfold _init_adapter, bind, attr, call, assign, raise, Serial.write.
  destruct (ser self) as [s |] eqn:Hs.
  - destruct (write_fails w) as [e' |]; [| done].
    intros [= <- <-]. split; [done |]. right. by split; [eexists |].
  - intros [= <- <-]. split; [done |]. by left.
Qed.

(** X15. [connect] never raises. It returns [True] exactly when the port
    opens, the command is written and the thread starts; the backend then
    holds the open port with the command for its speed written to it,
    the running flag set and the started thread. The port name, the
    rates and the observers are never touched. When it returns [False]
    the buffer is as it was, and the thread attribute is as it was or
    holds a thread that was not started. *)
Theorem connect_reports_success (w : world) (self : CANUSBBackend) :
  exists self' ok,
    connect w self = (self', inr ok) /\
    (ok = true <->
     is_Some (match serial_Serial w with inr s => Some s | inl _ => None end)
     /\ write_fails w = None /\ start_fails w = None) /\
    (ok = true ->
     exists s,
       serial_Serial w = inr s /\
       ser self' = Some (Serial.mk (Serial.is_open s)
                           (Serial.written s ++ [init_command (can_speed self)])) /\
       running self' = true /\
       read_thread self' = Some (Thread.mk true)) /\
    (ok = false ->
     (read_thread self' = read_thread self \/
      read_thread self' = Some (Thread.mk false)) /\
     buffer self' = buffer self) /\
    port self' = port self /\ baudrate self' = baudrate self /\
    can_speed self' = can_speed self /\
    on_frame_received self' = on_frame_received self.
Proof.
  unfold connect, try_except, bind, call, assign, attr, ret.
  destruct (serial_Serial w) as [e | s].
  { exists self, false. split; [done |]. split.
    { split; [done |]. by intros [[? ?] _]. }
    split; [done |]. split; [| done]. intros _. split; [by left | done]. }
  unfold _init_adapter, bind, attr, call, assign, Serial.write.
  cbn [ser set_ser].
  destruct (write_fails w) as [e |].
  { eexists _, false. split; [done |]. split.
    { split; [done |]. by intros (_ & ? & _). }
    split; [done |]. split; [| done]. intros _. split; [by left | done]. }
  cbn [read_thread set_read_thread set_running Thread.start Thread.started].
  destruct (start_fails w) as [e |].
  { eexists _, false. split; [done |]. split.
    { split; [done |]. by intros (_ & _ & ?). }
    split; [done |]. split; [| done]. intros _. split; [by right | done]. }
  eexists _, true. split; [done |]. split.
  { split; [| done]. intros _. by split; [eexists |]. }
  split; [intros _; by exists s |]. split; [done | done].
Qed.


(** X17. [disconnect] clears the running flag whether it returns or
    raises, and touches neither the configuration, the observers nor the
    thread attribute. It raises exactly when it holds a thread object
    that was never started, or that is the thread the call is made on;
    it then leaves the port as it was, not closed. When it returns, the
    port it holds is closed and a second [disconnect] changes nothing. *)
Theorem disconnect_always_clears_running (on_reader : bool)
    (self : CANUSBBackend) :
  exists self' r,
    disconnect_on on_reader self = (self', r) /\
    running self' = false /\
    port self' = port self /\ baudrate self' = baudrate self /\
    can_speed self' = can_speed self /\
    on_frame_received self' = on_frame_received self /\
    read_thread self' = read_thread self /\
    (r = inl RuntimeError <->
     exists th, read_thread self = Some th /\
                (Thread.started th = false \/ on_reader = true)) /\
    (r <> inr tt -> r = inl RuntimeError /\ ser self' = ser self) /\
    (r = inr tt ->
     ser self' = Serial.close <$> ser self /\
     disconnect_on on_reader self' = (self', inr tt)).
Proof.
  destruct self as [p b c s r [[[|]] |] o buf];
    destruct s as [[op wr] |]; destruct on_reader;
    eexists _, _; (split; [reflexivity |]); cbn;
    repeat split; try done;
    try (intros _; eexists; split; [reflexivity |]; cbn; auto);
    try (intros (th & [= <-] & [? | ?]); done);
    try (intros (th & ? & _); done).
Qed.

(** ** The row filters of the monitor window *)

Section RowFilters.

Variable lower : string -> string.
Implicit Types (f : Filter.t) (filters : list Filter.t)
  (id_text data_hex needle hay : string).

Lemma prefix_spec needle hay :
  String.prefix needle hay = true <-> exists post, hay = needle +:+ post.
Proof.
  revert hay. induction needle as [| a needle IH]; intros hay.
  - split; [intros _; by exists hay |]. by destruct hay.
  - destruct hay as [| b hay]; cbn [String.prefix].
    { split; [done |]. by intros [post [=]]. }
    destruct (Ascii.ascii_dec a b) as [-> | Hne].
    + rewrite IH. split; intros [post Hpost]; exists post.
      * subst hay. reflexivity.
      * by injection Hpost.
    + split; [done |]. intros [post Hpost]. by injection Hpost.
Qed.

Lemma contains_spec needle hay :
  Filter.contains needle hay = true <-> Filter.occurs needle hay.
Proof.
  unfold Filter.occurs. induction hay as [| b hay IH]; cbn [Filter.contains].
  - rewrite orb_false_r, prefix_spec. split.
    + intros [post Hpost]. by exists ""%string, post.
    + intros ([| ? ?] & post & Hpost); [by exists post | done].
  - rewrite orb_true_iff, prefix_spec, IH. split.
    + intros [[post Hpost] | (pre & post & Hpost)].
      * by exists ""%string, post.
      * exists (String b pre), post. subst hay. reflexivity.
    + intros ([| c pre] & post & Hpost).
      * left. by exists post.
      * right. exists pre, post. by injection Hpost.
Qed.

(** What an Include filter and an Exclude filter answer. *)
Lemma matches_include f id_text data_hex :
  Filter.is_include f ->
  Filter.matches lower f id_text data_hex =
  Filter.contains (Filter.value f) (Filter.target lower f id_text data_hex).
Proof. unfold Filter.is_include, Filter.matches. by intros ->. Qed.

Lemma matches_exclude f id_text data_hex :
  Filter.is_exclude f ->
  Bool.eqb (Filter.matches lower f id_text data_hex) false =
  Filter.contains (Filter.value f) (Filter.target lower f id_text data_hex).
Proof.
  unfold Filter.is_exclude, Filter.matches. intros Hf%String.eqb_eq.
  rewrite Hf. cbn. by destruct (Filter.contains _ _).
Qed.

Lemma existsb_filter_ext {A : Type} (P : A -> Prop) `{!forall x, Decision (P x)}
    (g h : A -> bool) (l : list A) :
  (forall x, P x -> g x = h x) ->
  existsb g (filter P l) = existsb h (filter P l).
Proof.
  intros Hgh. induction l as [| x l IH]; [done |].
  rewrite filter_cons. destruct (decide (P x)) as [Hx | Hx]; [| done].
  cbn [existsb]. by rewrite IH, (Hgh x Hx).
Qed.

(** The decision in one expression: there is no Include filter or some
    Include filter finds its value; and no Exclude filter finds its
    value. *)
Lemma apply_row_filter_eq filters id_text data_hex :
  Filter.apply_row_filter lower filters id_text data_hex =
  (bool_decide (filter Filter.is_include filters = []) ||
   existsb (fun f => Filter.contains (Filter.value f)
                       (Filter.target lower f id_text data_hex))
     (filter Filter.is_include filters)) &&
  negb (existsb (fun f => Filter.contains (Filter.value f)
                            (Filter.target lower f id_text data_hex))
          (filter Filter.is_exclude filters)).
Proof.
  unfold Filter.apply_row_filter.
  rewrite (existsb_filter_ext Filter.is_include
             (fun f => Filter.matches lower f id_text data_hex)
             (fun f => Filter.contains (Filter.value f)
                         (Filter.target lower f id_text data_hex)))
    by (intros f Hf; by apply matches_include).
  rewrite (existsb_filter_ext Filter.is_exclude
             (fun f => Bool.eqb (Filter.matches lower f id_text data_hex) false)
             (fun f => Filter.contains (Filter.value f)
                         (Filter.target lower f id_text data_hex)))
    by (intros f Hf; by apply matches_exclude).
  set (c := fun f => Filter.contains (Filter.value f)
                       (Filter.target lower f id_text data_hex)).
  destruct (filter Filter.is_include filters) as [| f0 incs].
  - rewrite (bool_decide_eq_true_2 (@nil Filter.t = [])) by done.
    cbn [orb andb].
    destruct (filter Filter.is_exclude filters) as [| e0 excs]; [done |].
    rewrite (bool_decide_eq_false_2 (e0 :: excs = [])) by done. cbn [negb].
    by destruct (existsb c (e0 :: excs)).
  - rewrite (bool_decide_eq_false_2 (f0 :: incs = [])) by done. cbn [orb].
    destruct (existsb c (f0 :: incs)); [| done]. cbn [andb].
    destruct (filter Filter.is_exclude filters) as [| e0 excs]; [done |].
    rewrite (bool_decide_eq_false_2 (e0 :: excs = [])) by done. cbn [negb].
    by destruct (existsb c (e0 :: excs)).
Qed.

Lemma existsb_filter_occurs (P : Filter.t -> Prop)
    `{!forall f, Decision (P f)} filters id_text data_hex :
  existsb (fun f => Filter.contains (Filter.value f)
                      (Filter.target lower f id_text data_hex))
    (filter P filters) = true <->
  exists f, f ∈ filters /\ P f /\
            Filter.occurs (Filter.value f)
              (Filter.target lower f id_text data_hex).
Proof.
  rewrite existsb_exists. split.
  - intros (f & Hin & Hc).
    apply list_elem_of_In, list_elem_of_filter in Hin as [Hf Hin].
    exists f. split; [done |]. split; [done |]. by apply contains_spec.
  - intros (f & Hin & Hf & Hocc). exists f. split.
    + apply list_elem_of_In, list_elem_of_filter. by split.
    + by apply contains_spec.
Qed.

(** X18. A row is shown exactly when no Exclude filter's value occurs in the
    text it looks at and, if there is any Include filter, the value of
    some Include filter occurs in the text it looks at. Filters whose
    logic is neither word play no part. *)
Theorem row_is_shown_iff filters id_text data_hex :
  Filter.apply_row_filter lower filters id_text data_hex = true <->
  ((forall f, f ∈ filters -> Filter.logic f <> "Include"%string) \/
   (exists f, f ∈ filters /\ Filter.logic f = "Include"%string /\
              Filter.occurs (Filter.value f)
                (Filter.target lower f id_text data_hex))) /\
  (forall f, f ∈ filters -> Filter.logic f = "Exclude"%string ->
             ~ Filter.occurs (Filter.value f)
                 (Filter.target lower f id_text data_hex)).
Proof.
  rewrite apply_row_filter_eq, andb_true_iff, orb_true_iff, negb_true_iff.
  rewrite bool_decide_eq_true, <- not_true_iff_false.
  rewrite !existsb_filter_occurs.
  split; intros [Hinc Hexc]; split.
  - destruct Hinc as [Hnone | (f & Hin & Hf & Hocc)].
    + left. intros f Hin Hlogic.
      assert (Hf : f ∈ filter Filter.is_include filters).
      { apply list_elem_of_filter. split; [| done].
        unfold Filter.is_include. by rewrite Hlogic. }
      rewrite Hnone in Hf. by apply elem_of_nil in Hf.
    + right. exists f. split; [done |]. split; [| done].
      by apply String.eqb_eq.
  - intros f Hin Hlogic Hocc. apply Hexc. exists f.
    split; [done |]. split; [| done].
    unfold Filter.is_exclude. by rewrite Hlogic.
  - destruct Hinc as [Hnone | (f & Hin & Hlogic & Hocc)].
    + left. destruct (filter Filter.is_include filters) as [| f fs] eqn:Hfs;
        [done |].
      assert (Hf : f ∈ filter Filter.is_include filters)
        by (rewrite Hfs; by left).
      apply list_elem_of_filter in Hf as [Hf Hin].
      apply String.eqb_eq in Hf. by destruct (Hnone f Hin).
    + right. exists f. split; [done |]. split; [| done].
      unfold Filter.is_include. by rewrite Hlogic.
  - intros (f & Hin & Hf%String.eqb_eq & Hocc). by apply (Hexc f).
Qed.

(** X19. Adding an Exclude filter can only hide rows: afterwards a row is
    shown when it was shown before and the new value does not occur in
    it. Adding a filter whose logic is neither "Include" nor "Exclude"
    changes nothing. *)
Theorem added_exclude_filter_only_hides filters f id_text data_hex :
  (Filter.logic f = "Exclude"%string ->
   Filter.apply_row_filter lower (filters ++ [f]) id_text data_hex =
   Filter.apply_row_filter lower filters id_text data_hex &&
   negb (Filter.contains (Filter.value f)
           (Filter.target lower f id_text data_hex))) /\
  (Filter.logic f <> "Include"%string ->
   Filter.logic f <> "Exclude"%string ->
   Filter.apply_row_filter lower (filters ++ [f]) id_text data_hex =
   Filter.apply_row_filter lower filters id_text data_hex).
Proof.
  rewrite !apply_row_filter_eq, !filter_app.
  split.
  - intros Hlogic.
    assert (Hinc : filter Filter.is_include [f] = []).
    { rewrite filter_cons, decide_False; [done |].
      unfold Filter.is_include. by rewrite Hlogic. }
    assert (Hexc : filter Filter.is_exclude [f] = [f]).
    { rewrite filter_cons, decide_True; [done |].
      unfold Filter.is_exclude. by rewrite Hlogic. }
    rewrite Hinc, Hexc, app_nil_r, existsb_app. cbn [existsb].
    rewrite orb_false_r, negb_orb, andb_assoc. done.
  - intros Hni Hne.
    assert (Hinc : filter Filter.is_include [f] = []).
    { rewrite filter_cons, decide_False; [done |].
      unfold Filter.is_include. by rewrite String.eqb_eq. }
    assert (Hexc : filter Filter.is_exclude [f] = []).
    { rewrite filter_cons, decide_False; [done |].
      unfold Filter.is_exclude. by rewrite String.eqb_eq. }
    by rewrite Hinc, Hexc, !app_nil_r.
Qed.

End RowFilters.

(** ** The further properties at concrete inputs *)

Lemma test_data_bytes : Forall is_byte test_data.
Proof. unfold test_data, is_byte. repeat constructor; lia. Defined.

Lemma identifier_is_16_bits_test :
  Forall is_byte test_data /\
  exists p,
    _process_buffer test_clock test_data = Some p /\
    forall f, f ∈ frames p -> 0 <= CANFrame.id f <= 0xFFFF.
Proof.
  split; [exact test_data_bytes |].
  destruct (identifier_is_16_bits test_clock test_data test_data_bytes)
    as (p & Hp & Hall).
  exists p. split; [exact Hp |].
  intros f Hin. exact (proj1 (Hall f Hin)).
Defined.

Lemma noise_prefix_is_skipped_test :
  (0xAA ∉ [0x7F]) /\
  _process_buffer test_clock ([0x7F] ++ test_data) =
    Some (mkpass [CANFrame.mk 0x123 8 [1; 2; 3; 4; 5; 6; 7; 8] false 0%nat]
            [] 2).
Proof.
  assert (Hno : 0xAA ∉ [0x7F]).
  { intros H. apply elem_of_cons in H as [H | H]; [lia |].
    by apply elem_of_nil in H. }
  split; [exact Hno |].
  destruct (noise_prefix_is_skipped test_clock [0x7F] test_data Hno)
    as (p & Hp & Hnoise).
  injection Hp as <-. exact Hnoise.
Defined.

Lemma unknown_type_byte_costs_one_byte_test :
  0xAA <> 0x55 /\ Z.shiftr 0xAA 4 <> 0x0C /\
  _process_buffer test_clock (0xAA :: test_data) =
    Some (mkpass [CANFrame.mk 0x123 8 [1; 2; 3; 4; 5; 6; 7; 8] false 0%nat]
            [] 2).
Proof.
  assert (H55 : 0xAA <> 0x55) by lia.
  assert (Hhi : Z.shiftr 0xAA 4 <> 0x0C) by (vm_compute; discriminate).
  split; [exact H55 |]. split; [exact Hhi |].
  destruct (unknown_type_byte_costs_one_byte test_clock 0xAA
              (drop 1 test_data) H55 Hhi) as (p & Hp & Hstart).
  injection Hp as <-. exact Hstart.
Defined.

Lemma command_frames_are_swallowed_test :
  Py.len (replicate 18 0x00) = 18 /\
  _process_buffer test_clock (0xAA :: 0x55 :: replicate 18 0x00 ++ test_data) =
    Some (mkpass [CANFrame.mk 0x123 8 [1; 2; 3; 4; 5; 6; 7; 8] false 0%nat]
            [] 2) /\
  _process_buffer test_clock (init_command 500000 ++ test_data) =
    Some (mkpass [CANFrame.mk 0x123 8 [1; 2; 3; 4; 5; 6; 7; 8] false 0%nat]
            [] 2).
Proof.
  destruct (@command_frames_are_swallowed nat) as [Hany Hinit].
  split; [reflexivity |]. split.
  - destruct (Hany test_clock (replicate 18 0x00) test_data eq_refl)
      as (p & Hp & Hcmd).
    injection Hp as <-. exact Hcmd.
  - destruct (Hinit test_clock 500000 test_data) as (p & Hp & Hcmd).
    injection Hp as <-. exact Hcmd.
Defined.

Lemma init_command_determines_speed_test :
  is_Some (speed_map !! 500000) /\ is_Some (speed_map !! 250000) /\
  (init_command 500000 = init_command 250000 -> 500000 = 250000) /\
  Py.getitem (init_command 500000) 19 = Some 0x17.
Proof.
  assert (H1 : is_Some (speed_map !! 500000)) by (by exists 0x03).
  assert (H2 : is_Some (speed_map !! 250000)) by (by exists 0x05).
  destruct (init_command_determines_speed 500000 250000 H1 H2)
    as (Hinj & _ & _).
  split; [exact H1 |]. split; [exact H2 |]. split; [exact Hinj |].
  reflexivity.
Defined.

Lemma init_adapter_failure_changes_nothing_test :
  let w := mkWorld (inr (Serial.mk true [])) None None in
  let self := __init__ "MOCK" 2000000 500000 in
  _init_adapter w self = (self, inl AttributeError) /\
  ser self = None.
Proof.
  intros w self.
  assert (H : _init_adapter w self = (self, inl AttributeError))
    by reflexivity.
  destruct (init_adapter_failure_changes_nothing w self self AttributeError H)
    as (_ & [[Hnone _] | [[s Hs] _]]).
  - split; [exact H | exact Hnone].
  - discriminate Hs.
Defined.


Lemma added_exclude_filter_only_hides_test :
  let lower := fun s : string => s in
  let f := Filter.__init__ lower "ID" "123" "Exclude" in
  Filter.logic f = "Exclude"%string /\
  Filter.apply_row_filter lower ([] ++ [f]) "0x123" "01 02" = false /\
  Filter.apply_row_filter lower ([] ++ [f]) "0x456" "01 02" = true.
Proof.
  intros lower f.
  split; [reflexivity |].
  destruct (added_exclude_filter_only_hides lower [] f "0x123" "01 02")
    as [Hex _].
  destruct (added_exclude_filter_only_hides lower [] f "0x456" "01 02")
    as [Hex' _].
  split; [rewrite (Hex eq_refl) | rewrite (Hex' eq_refl)]; reflexivity.
Defined.

